(** * The call-tree observer and renderer of the dispatch CLI (cli/tui.go)

    A shallow embedding of the store kept by [TUI] (roots, ordered roots,
    nodes), of the two observer entry points [ObserveRequest] and
    [ObserveResponse], of the status classifiers and of the row renderer
    [buildRows] / [functionCallsView], followed by the properties of the
    specification that concern them. *)

From stdpp Require Import gmap strings list pretty.

#[local] Set Warnings "-clear-no-such-hyp".

Open Scope Z_scope.

(** ** Go values *)

(** Go's [int] on the supported platforms: 64 bits, two's complement. *)
Definition int_min : Z := - 2 ^ 63.
Definition int_max : Z := 2 ^ 63 - 1.

Definition wrap64 (z : Z) : Z := (z + 2 ^ 63) mod 2 ^ 64 - 2 ^ 63.

Definition int_add (x y : Z) : Z := wrap64 (x + y).
Definition int_sub (x y : Z) : Z := wrap64 (x - y).
(** [x++] *)
Definition int_incr (x : Z) : Z := int_add x 1.

(** [time.Time] as the number of nanoseconds since the zero instant
    (January 1, year 1, 00:00:00 UTC); [time.Duration] is an int64 count of
    nanoseconds.  The monotonic clock reading carried by [time.Now()] is
    not modelled: [Sub] is the difference of the two instants. *)
Abbreviation Time := Z (only parsing).
Abbreviation Duration := Z (only parsing).

Definition minDuration : Duration := - 2 ^ 63.
Definition maxDuration : Duration := 2 ^ 63 - 1.
Definition Millisecond : Duration := 1000000.

Definition IsZero (t : Time) : bool := t =? 0.
Definition Before (t u : Time) : bool := t <? u.

(** [t.Sub(u)]: saturates at the ends of the Duration range. *)
Definition Sub (t u : Time) : Duration :=
  if t - u <? minDuration then minDuration
  else if maxDuration <? t - u then maxDuration
  else t - u.

(** [d.Truncate(m)]: rounds toward zero to a multiple of [m]. *)
Definition Truncate (d m : Duration) : Duration :=
  if m <=? 0 then d else d - Z.rem d m.

(** What a call does: it returns, or the process panics.  [OutOfFuel] is
    the answer of a fuelled model whose fuel ran out (only the recursive
    renderer below can give it). *)
Inductive outcome (A : Type) : Type :=
  | Returns (a : A)
  | Panics (msg : string)
  | OutOfFuel.
Arguments Returns {A} a.
Arguments Panics {A} msg.
Arguments OutOfFuel {A}.

#[global] Instance outcome_ret : MRet outcome := fun _ a => Returns a.
#[global] Instance outcome_bind : MBind outcome := fun _ _ k x =>
  match x with
  | Returns a => k a
  | Panics msg => Panics msg
  | OutOfFuel => OutOfFuel
  end.

(** ** Status codes *)

(** Modelled from the spec: the outcome codes of the generated enum
    [sdkv1.Status] (package dispatch/sdk/v1, outside this repository's
    sources).  The source names the codes and the spec lists them; their
    wire numbers are those of the protocol definition.  A [Status] is an
    int32, so a code outside this list (an unrecognized code) is any other
    number. *)
Abbreviation Status := Z (only parsing).

Definition Status_STATUS_UNSPECIFIED : Status := 0.
Definition Status_STATUS_OK : Status := 1.
Definition Status_STATUS_TIMEOUT : Status := 2.
Definition Status_STATUS_THROTTLED : Status := 3.
Definition Status_STATUS_INVALID_ARGUMENT : Status := 4.
Definition Status_STATUS_TEMPORARY_ERROR : Status := 6.
Definition Status_STATUS_PERMANENT_ERROR : Status := 7.
Definition Status_STATUS_INCOMPATIBLE_STATE : Status := 8.
Definition Status_STATUS_DNS_ERROR : Status := 9.
Definition Status_STATUS_TCP_ERROR : Status := 10.
Definition Status_STATUS_TLS_ERROR : Status := 11.
Definition Status_STATUS_HTTP_ERROR : Status := 12.
Definition Status_STATUS_UNAUTHENTICATED : Status := 13.
Definition Status_STATUS_PERMISSION_DENIED : Status := 14.
Definition Status_STATUS_NOT_FOUND : Status := 15.

(** net/http status constants used by the classifier. *)
Definition StatusRequestTimeout : Z := 408.
Definition StatusTooManyRequests : Z := 429.
Definition StatusNotImplemented : Z := 501.

Definition terminalStatus (status : Status) : bool :=
  if (status =? Status_STATUS_TIMEOUT)
     || (status =? Status_STATUS_THROTTLED)
     || (status =? Status_STATUS_TEMPORARY_ERROR)
     || (status =? Status_STATUS_INCOMPATIBLE_STATE)
     || (status =? Status_STATUS_DNS_ERROR)
     || (status =? Status_STATUS_TCP_ERROR)
     || (status =? Status_STATUS_TLS_ERROR)
     || (status =? Status_STATUS_HTTP_ERROR)
  then false
  else true.

(** [code / 100] is Go's division, which truncates toward zero ([Z.quot]);
    dividing by 100 cannot overflow. *)
Definition terminalHTTPStatusCode (code : Z) : bool :=
  match Z.quot code 100 with
  | 4 => negb (code =? StatusRequestTimeout) && negb (code =? StatusTooManyRequests)
  | 5 => code =? StatusNotImplemented
  | _ => true
  end.

(** ** Messages of the Dispatch protocol (the fields the observer reads) *)

Abbreviation DispatchID := string (only parsing).

(** [sdkv1.RunRequest].  A timestamp field is [None] when the pointer is
    nil and otherwise holds the instant [AsTime()] returns. *)
Record RunRequest := {
  RootDispatchId : string;
  ParentDispatchId : string;
  DispatchId : string;
  Function : string;
  CreationTime : option Time;
  ExpirationTime : option Time
}.

(** [sdkv1.Error], [sdkv1.CallResult], [sdkv1.Call], [sdkv1.Exit]. *)
Record Error := { Type_ : string; Message : string }.
Record CallResult := { Error_ : option Error }.
Record Call := { Call_Function : string }.
Record Exit := { Result : option CallResult; TailCall : option Call }.

(** The [Directive] oneof of [sdkv1.RunResponse]; [Directive_nil] is the
    unset oneof. *)
Inductive Directive :=
  | RunResponse_Exit (e : Exit)
  | RunResponse_Poll
  | Directive_nil.

Record RunResponse := { Status_ : Status; Directive_ : Directive }.

(** ** The store *)

(** [node].  A Go [error] is kept as the text [Error()] returns; [children]
    is [None] for the nil map. *)
Record node := mkNode {
  function : string;
  failures : Z;
  responses : Z;
  status : Status;
  error : option string;
  running : bool;
  done : bool;
  creationTime : Time;
  expirationTime : Time;
  doneTime : Time;
  children : option (gset string);
  orderedChildren : list string
}.

(** [node{function: f}] *)
Definition node_of_function (f : string) : node :=
  mkNode f 0 0 0 None false false 0 0 0 None [].

(** [node{}] *)
Definition node_zero : node := node_of_function "".

Definition set_function (v : string) (n : node) : node :=
  mkNode v (failures n) (responses n) (status n) (error n) (running n) (done n)
    (creationTime n) (expirationTime n) (doneTime n) (children n) (orderedChildren n).
Definition set_failures (v : Z) (n : node) : node :=
  mkNode (function n) v (responses n) (status n) (error n) (running n) (done n)
    (creationTime n) (expirationTime n) (doneTime n) (children n) (orderedChildren n).
Definition set_responses (v : Z) (n : node) : node :=
  mkNode (function n) (failures n) v (status n) (error n) (running n) (done n)
    (creationTime n) (expirationTime n) (doneTime n) (children n) (orderedChildren n).
Definition set_status (v : Status) (n : node) : node :=
  mkNode (function n) (failures n) (responses n) v (error n) (running n) (done n)
    (creationTime n) (expirationTime n) (doneTime n) (children n) (orderedChildren n).
Definition set_error (v : option string) (n : node) : node :=
  mkNode (function n) (failures n) (responses n) (status n) v (running n) (done n)
    (creationTime n) (expirationTime n) (doneTime n) (children n) (orderedChildren n).
Definition set_running (v : bool) (n : node) : node :=
  mkNode (function n) (failures n) (responses n) (status n) (error n) v (done n)
    (creationTime n) (expirationTime n) (doneTime n) (children n) (orderedChildren n).
Definition set_done (v : bool) (n : node) : node :=
  mkNode (function n) (failures n) (responses n) (status n) (error n) (running n) v
    (creationTime n) (expirationTime n) (doneTime n) (children n) (orderedChildren n).
Definition set_creationTime (v : Time) (n : node) : node :=
  mkNode (function n) (failures n) (responses n) (status n) (error n) (running n) (done n)
    v (expirationTime n) (doneTime n) (children n) (orderedChildren n).
Definition set_expirationTime (v : Time) (n : node) : node :=
  mkNode (function n) (failures n) (responses n) (status n) (error n) (running n) (done n)
    (creationTime n) v (doneTime n) (children n) (orderedChildren n).
Definition set_doneTime (v : Time) (n : node) : node :=
  mkNode (function n) (failures n) (responses n) (status n) (error n) (running n) (done n)
    (creationTime n) (expirationTime n) v (children n) (orderedChildren n).
Definition set_children (v : option (gset string)) (n : node) : node :=
  mkNode (function n) (failures n) (responses n) (status n) (error n) (running n) (done n)
    (creationTime n) (expirationTime n) (doneTime n) v (orderedChildren n).
Definition set_orderedChildren (v : list string) (n : node) : node :=
  mkNode (function n) (failures n) (responses n) (status n) (error n) (running n) (done n)
    (creationTime n) (expirationTime n) (doneTime n) (children n) v.

(** The part of [TUI] the observer and the renderer of the call tree use.
    [roots] and [nodes] are [None] while the Go maps are nil; [spinner] is
    the frame [t.spinner.View()] returns. *)
Record TUI := mkTUI {
  ticks : Z;
  roots : option (gset string);
  orderedRoots : list string;
  nodes : option (gmap string node);
  spinner : string
}.

(** [&TUI{}] *)
Definition TUI_zero : TUI := mkTUI 0 None [] None "".

Definition parseID (id : string) : DispatchID := id.

(** [t.nodes[id]] read: the zero node when the key (or the map) is absent. *)
Definition lookup_node (t : TUI) (id : DispatchID) : option node :=
  nodes t ≫= (.!! id).
Definition node_at (t : TUI) (id : DispatchID) : node :=
  default node_zero (lookup_node t id).

(** [_, ok := set[id]] on a possibly nil set. *)
Definition has_key (s : option (gset string)) (id : DispatchID) : bool :=
  bool_decide (id ∈ default ∅ s).

(** ** The observer *)

(** The upsert of the root in [ObserveRequest]: registry and ordered
    registry, on the maps already made non-nil. *)
Definition upsert_root (rootID : DispatchID) (rs : gset string) (ordered : list string)
  : gset string * list string :=
  if bool_decide (rootID ∈ rs) then (rs, ordered)
  else ({[rootID]} ∪ rs, ordered ++ [rootID]).

(** The upsert of the node named by the request. *)
Definition upsert_node (now : Time) (req : RunRequest) (n : node) : node :=
  let n := set_function (Function req) n in
  let n := set_running true n in
  let n := match CreationTime req with
           | Some c => set_creationTime c n
           | None => n
           end in
  let n := if IsZero (creationTime n) then set_creationTime now n else n in
  match ExpirationTime req with
  | Some e => set_expirationTime e n
  | None => n
  end.

(** Linking [id] below [parent]. *)
Definition link_child (id : DispatchID) (parent : node) : node :=
  let parent := match children parent with
                | None => set_children (Some ∅) parent
                | Some _ => parent
                end in
  if has_key (children parent) id then parent
  else set_orderedChildren (orderedChildren parent ++ [id])
         (set_children (Some ({[id]} ∪ default ∅ (children parent))) parent).

(** [ObserveRequest]; [now] is what [time.Now()] returns during the call. *)
Definition ObserveRequest (now : Time) (req : RunRequest) (t : TUI) : outcome TUI :=
  let roots0 := default ∅ (roots t) in
  let nodes0 := default ∅ (nodes t) in
  let rootID := parseID (RootDispatchId req) in
  let parentID := parseID (ParentDispatchId req) in
  let id := parseID (DispatchId req) in
  (* Upsert the root. *)
  let '(roots1, orderedRoots1) := upsert_root rootID roots0 (orderedRoots t) in
  let root := default node_zero (nodes0 !! rootID) in
  let nodes1 := <[rootID := root]> nodes0 in
  (* Upsert the node. *)
  let n := upsert_node now req (default node_zero (nodes1 !! id)) in
  let nodes2 := <[id := n]> nodes1 in
  (* Upsert the parent and link its child, if applicable. *)
  if bool_decide (parentID ≠ "") then
    parent ← match nodes2 !! parentID with
             | Some p => Returns p
             | None =>
                 if bool_decide (parentID ≠ rootID) then Panics "not implemented"
                 else Returns node_zero
             end;
    Returns (mkTUI (ticks t) (Some roots1) orderedRoots1
               (Some (<[parentID := link_child id parent]> nodes2)) (spinner t))
  else
    Returns (mkTUI (ticks t) (Some roots1) orderedRoots1 (Some nodes2) (spinner t)).

(** [fmt.Errorf] of the application error of an exit. *)
Definition exit_error (e : Error) : string :=
  if bool_decide (Message e = "") then Type_ e
  else Type_ e +:+ ": " +:+ Message e.

(** The [*sdkv1.RunResponse_Exit] case of the directive switch. *)
Definition observe_exit (res : RunResponse) (e : Exit) (n : node) : node :=
  let n := set_status (Status_ res) n in
  let n := set_done (terminalStatus (Status_ res)) n in
  match TailCall e with
  | Some call => node_of_function (Call_Function call) (* reset *)
  | None =>
      if bool_decide (Status_ res ≠ Status_STATUS_OK) then
        match Result e with
        | Some r =>
            match Error_ r with
            | Some err =>
                if bool_decide (Type_ err ≠ "") then set_error (Some (exit_error err)) n
                else n
            | None => n
            end
        | None => n
        end
      else n
  end.

(** What [ObserveResponse] does to the node of the response; [err] is the
    text of the Go error, [httpRes] the status code of the HTTP response. *)
Definition observe_response (now : Time) (err : option string) (httpRes : option Z)
    (res : option RunResponse) (n : node) : node :=
  let n := set_responses (int_incr (responses n)) n in
  let n := set_error None n in
  let n := set_status 0 n in
  let n := set_running false n in
  let n :=
    match res, httpRes, err with
    | Some res, _, _ =>
        let n :=
          if Status_ res =? Status_STATUS_OK then n
          else if Status_ res =? Status_STATUS_INCOMPATIBLE_STATE
               then node_of_function (function n) (* reset *)
          else set_failures (int_incr (failures n)) n in
        match Directive_ res with
        | RunResponse_Exit e => observe_exit res e n
        | RunResponse_Poll => n
        | Directive_nil => n
        end
    | None, Some code, _ =>
        let n := set_failures (int_incr (failures n)) n in
        let n := set_error (Some ("unexpected HTTP status code " +:+ pretty code)) n in
        set_done (terminalHTTPStatusCode code) n
    | None, None, Some e =>
        let n := set_failures (int_incr (failures n)) n in
        set_error (Some e) n
    | None, None, None => n
    end in
  if done n && IsZero (doneTime n) then set_doneTime now n else n.

(** [ObserveResponse]: the node is read from [t.nodes] (a read of a nil map
    gives the zero node) and written back (a write to a nil map panics). *)
Definition ObserveResponse (now : Time) (req : RunRequest) (err : option string)
    (httpRes : option Z) (res : option RunResponse) (t : TUI) : outcome TUI :=
  let id := parseID (DispatchId req) in
  let n := observe_response now err httpRes res (node_at t id) in
  match nodes t with
  | None => Panics "assignment to entry in nil map"
  | Some m => Returns (mkTUI (ticks t) (roots t) (orderedRoots t) (Some (<[id := n]> m)) (spinner t))
  end.

(** Events reaching the observer, and a run of them from a given store. *)
Inductive event :=
  | Request (now : Time) (req : RunRequest)
  | Response (now : Time) (req : RunRequest) (err : option string)
      (httpRes : option Z) (res : option RunResponse).

Definition observe (ev : event) (t : TUI) : outcome TUI :=
  match ev with
  | Request now req => ObserveRequest now req t
  | Response now req err httpRes res => ObserveResponse now req err httpRes res t
  end.

Fixpoint observe_all (evs : list event) (t : TUI) : outcome TUI :=
  match evs with
  | [] => Returns t
  | ev :: evs' => t' ← observe ev t; observe_all evs' t'
  end.

(** ** The renderer *)

(** The lipgloss styles declared at the top of the file. *)
Inductive Style :=
  | viewportStyle | logoStyle | logoUnderscoreStyle | statusStyle
  | tableHeaderStyle | pendingStyle | retryStyle | errorStyle | okStyle
  | spinnerStyle | treeStyle.

Module row.
(** [row] *)
Record t := mk {
  spinner : string;
  attempts : Z;
  elapsed : Duration;
  function : string;
  status : string
}.
End row.

(** [rowBuffer] *)
Record rowBuffer := { rows : list row.t }.

Definition rowBuffer_add (r : row.t) (b : rowBuffer) : rowBuffer :=
  {| rows := rows b ++ [r] |}.
Definition rowBuffer_reset (b : rowBuffer) : rowBuffer :=
  {| rows := [] |}.

Definition newline : string := String (Ascii.ascii_of_nat 10) "".
Definition ansi_reset : string := String (Ascii.ascii_of_nat 27) "[0m".

(** https://patorjk.com/software/taag/ (Ogre) *)
Definition dispatchAscii : list string :=
  [ "     _ _                 _       _";
    "  __| (_)___ _ __   __ _| |_ ___| |__";
    " / _' | / __| '_ \ / _' | __/ __| '_ \";
    "| (_| | \__ \ |_) | (_| | || (__| | | |";
    " \__,_|_|___/ .__/ \__,_|\__\___|_| |_|";
    "            |_|" ].

Definition underscoreAscii : list string :=
  [ " _____";
    "|_____|" ].

Definition underscoreIndex : nat := 3.

Fixpoint repeat_string (count : nat) (s : string) : string :=
  match count with
  | O => ""
  | S c => s +:+ repeat_string c s
  end.

(** [s[:len(s)-1]] on a non-empty string. *)
Fixpoint drop_last_byte (s : string) : string :=
  match s with
  | EmptyString => EmptyString
  | String c EmptyString => EmptyString
  | String c s' => String c (drop_last_byte s')
  end.

Section Renderer.

(** What the libraries outside the repository compute: [Style.Render] of
    lipgloss (the colours are declared in a file that is not part of the
    sources), [ansi.PrintableRuneWidth], [Duration.String] and the
    [String] method of the generated [Status] enum. *)
Variable Render : Style -> string -> string.
Variable PrintableRuneWidth : string -> Z.
Variable DurationString : Duration -> string.
Variable StatusName : Status -> string.

Definition statusString (status : Status) : string :=
  if status =? Status_STATUS_OK then "OK"
  else if status =? Status_STATUS_TIMEOUT then "Timeout"
  else if status =? Status_STATUS_THROTTLED then "Throttled"
  else if status =? Status_STATUS_INVALID_ARGUMENT then "Invalid response"
  else if status =? Status_STATUS_TEMPORARY_ERROR then "Temporary error"
  else if status =? Status_STATUS_PERMANENT_ERROR then "Permanent error"
  else if status =? Status_STATUS_INCOMPATIBLE_STATE then "Incompatible state"
  else if status =? Status_STATUS_DNS_ERROR then "DNS error"
  else if status =? Status_STATUS_TCP_ERROR then "TCP error"
  else if status =? Status_STATUS_TLS_ERROR then "TLS error"
  else if status =? Status_STATUS_HTTP_ERROR then "HTTP error"
  else if status =? Status_STATUS_UNAUTHENTICATED then "Unauthenticated"
  else if status =? Status_STATUS_PERMISSION_DENIED then "Permission denied"
  else if status =? Status_STATUS_NOT_FOUND then "Not found"
  else StatusName status.

Definition logoView (t : TUI) : string :=
  let showUnderscore := ticks t mod 2 =? 0 in
  let line_view (i : nat) (line : string) : string :=
    Render logoStyle line
    +:+ (if showUnderscore then
           match (if bool_decide (underscoreIndex ≤ i)%nat
                  then underscoreAscii !! (i - underscoreIndex)%nat else None) with
           | Some u => Render logoUnderscoreStyle u
           | None => ""
           end
         else "")
    +:+ newline in
  foldr String.append "" (imap line_view dispatchAscii) +:+ newline.

Definition whitespace (width : Z) : outcome string :=
  if width <? 0 then Panics "strings: negative Repeat count"
  else Returns (repeat_string (Z.to_nat width) " ").

Definition padding (width : Z) (s : string) : Z :=
  int_sub width (PrintableRuneWidth s).

(** The loop of [truncate]; it removes one byte per turn, so it ends
    within [length s] turns or panics on the empty string. *)
Fixpoint truncate_loop (fuel : nat) (width : Z) (s : string) (truncated : bool)
  : outcome (string * bool) :=
  if width <? PrintableRuneWidth s then
    match fuel with
    | O => OutOfFuel
    | S fuel' =>
        match s with
        | EmptyString => Panics "slice bounds out of range [:-1]"
        | _ => truncate_loop fuel' width (drop_last_byte s) true
        end
    end
  else Returns (s, truncated).

Definition truncate (width : Z) (s : string) : outcome string :=
  '(s, truncated) ← truncate_loop (S (String.length s)) width s false;
  Returns (if truncated : bool then s +:+ ansi_reset else s).

Definition right (width : Z) (s : string) : outcome string :=
  if width <? PrintableRuneWidth s then
    s' ← truncate (int_sub width 3) s; Returns (s' +:+ "...")
  else
    w ← whitespace (padding width s); Returns (w +:+ s).

Definition left (width : Z) (s : string) : outcome string :=
  if width <? PrintableRuneWidth s then
    s' ← truncate (int_sub width 3) s; Returns (s' +:+ "...")
  else
    w ← whitespace (padding width s); Returns (s +:+ w).

Definition tableHeaderView (functionColumnWidth : Z) : outcome string :=
  c0 ← whitespace 2;
  c1 ← left functionColumnWidth (Render tableHeaderStyle "Function");
  c2 ← right 8 (Render tableHeaderStyle "Attempts");
  c3 ← right 10 (Render tableHeaderStyle "Duration");
  c4 ← left 40 (Render tableHeaderStyle "Status");
  Returns (c0 +:+ c1 +:+ " " +:+ c2 +:+ " " +:+ c3 +:+ " " +:+ c4 +:+ newline).

Definition tableRowView (r : row.t) (functionColumnWidth : Z) : outcome string :=
  let attemptsStr := pretty (row.attempts r) in
  let elapsedStr := if 0 <? row.elapsed r then DurationString (row.elapsed r) else "?" in
  c0 ← left 2 (row.spinner r);
  c1 ← left functionColumnWidth (row.function r);
  c2 ← right 8 attemptsStr;
  c3 ← right 10 elapsedStr;
  c4 ← left 40 (row.status r);
  Returns (c0 +:+ c1 +:+ " " +:+ c2 +:+ " " +:+ c3 +:+ " " +:+ c4 +:+ newline).

(** The tree prefix of a row: one glyph per level of [isLast]. *)
Definition tree_prefix (isLast : list bool) : string :=
  let glyph (i : nat) (last : bool) : string :=
    let s := if bool_decide (i = (length isLast - 1)%nat)
             then (if last then "└─" else "├─")
             else (if last then "  " else "│ ") in
    Render treeStyle s +:+ " " in
  foldr String.append "" (imap glyph isLast).

(** The first decision of [buildRows], on its local copy [n] of the node:
    the copy after the judgment, the style and the [pending] flag. *)
Definition judge (now : Time) (n : node) : node * Style * bool :=
  if done n then
    (n, (if status n =? Status_STATUS_OK then okStyle else errorStyle), false)
  else if negb (IsZero (expirationTime n)) && Before (expirationTime n) now then
    let n := set_error (Some "Expired") n in
    let n := set_done true n in
    let n := set_doneTime (expirationTime n) n in
    (n, errorStyle, false)
  else
    (n, (if 0 <? failures n then retryStyle else pendingStyle), true).

(** The row [buildRows] adds for its local copy [n0] of the node. *)
Definition build_row (now : Time) (spinnerView : string) (isLast : list bool) (n0 : node)
  : row.t :=
  let '(n, style, pending) := judge now n0 in
  (* Render the function name. *)
  let function_ :=
    tree_prefix isLast
    +:+ (if bool_decide (function n ≠ "") then Render style (function n)
         else Render style "(?)") in
  (* Render the status. *)
  let '(status_, style) :=
    if running n then ("Running", pendingStyle)
    else match error n with
         | Some e => (e, style)
         | None =>
             if negb (status n =? Status_STATUS_UNSPECIFIED) then (statusString (status n), style)
             else if pending && (0 <? responses n) then ("Suspended", pendingStyle)
             else ("Pending", style)
         end in
  let status_ := Render style status_ in
  let spinner_ := if pending then Render spinnerStyle spinnerView else "" in
  let attempts :=
    if running n then int_incr (failures n)
    else if done n && (status n =? Status_STATUS_OK) then int_incr (failures n)
    else if failures n <? responses n then int_incr (failures n)
    else failures n in
  let attempts := Z.max attempts 1 in
  let elapsed :=
    if negb (IsZero (creationTime n)) then
      let tail := if negb (done n) then now else doneTime n in
      Truncate (Sub tail (creationTime n)) Millisecond
    else 0 in
  row.mk spinner_ attempts elapsed function_ status_.

(** The loop of [buildRows] over the children of a node: [rec] is the
    recursive call, [len] is [len(n.orderedChildren)] and [i] the index
    of the first of [ids]. *)
Fixpoint range_children
    (rec : DispatchID -> list bool -> rowBuffer -> TUI -> outcome (rowBuffer * TUI))
    (isLast : list bool) (len : nat) (i : nat) (ids : list string)
    (rows : rowBuffer) (t : TUI) : outcome (rowBuffer * TUI) :=
  match ids with
  | [] => Returns (rows, t)
  | id :: ids' =>
      let last := bool_decide (i = (len - 1)%nat) in
      '(rows, t) ← rec id (isLast ++ [last]) rows t;
      range_children rec isLast len (S i) ids' rows t
  end.

(** [buildRows]: the receiver is threaded through, the local copy of the
    node is a value of its own.  [fuel] bounds the depth of the recursion
    over the children, which the Go code does not bound. *)
Fixpoint buildRows (fuel : nat) (now : Time) (id : DispatchID) (isLast : list bool)
    (rows : rowBuffer) (t : TUI) : outcome (rowBuffer * TUI) :=
  match fuel with
  | O => OutOfFuel
  | S fuel' =>
      let n := node_at t id in
      let rows := rowBuffer_add (build_row now (spinner t) isLast n) rows in
      (* Recursively render children. *)
      range_children (buildRows fuel' now) isLast (length (orderedChildren n)) O
        (orderedChildren n) rows t
  end.

(** The body of the loop over the roots in [functionCallsView]: the table
    of one root, appended to the text built so far. *)
Definition root_view (fuel : nat) (now : Time) (i : nat) (rootID : DispatchID)
    (b : string) (buf : rowBuffer) (t : TUI) : outcome (string * rowBuffer * TUI) :=
  let b := if bool_decide (0 < i)%nat then b +:+ newline else b in
  (* Buffer rows in memory. *)
  '(buf, t) ← buildRows fuel now rootID [] buf t;
  (* Dynamically size the function call tree column. *)
  let maxFunctionWidth :=
    foldl (fun w r => Z.max w (PrintableRuneWidth (row.function r))) 0 (rows buf) in
  let functionColumnWidth := Z.max 20 (Z.min 50 maxFunctionWidth) in
  (* Render the table. *)
  header ← tableHeaderView functionColumnWidth;
  body ← foldl (fun acc r => b ← acc; v ← tableRowView r functionColumnWidth; Returns (b +:+ v))
            (Returns (b +:+ header)) (rows buf);
  Returns (body, rowBuffer_reset buf, t).

Fixpoint roots_view (fuel : nat) (now : Time) (i : nat) (rootIDs : list string)
    (b : string) (buf : rowBuffer) (t : TUI) : outcome (string * TUI) :=
  match rootIDs with
  | [] => Returns (b, t)
  | rootID :: rootIDs' =>
      '(b, buf, t) ← root_view fuel now i rootID b buf t;
      roots_view fuel now (S i) rootIDs' b buf t
  end.

(** [functionCallsView]: the text of the functions tab and the store
    after the call. *)
Definition functionCallsView (fuel : nat) (now : Time) (t : TUI) : outcome (string * TUI) :=
  if bool_decide (size (default ∅ (roots t)) = 0%nat) then
    Returns (logoView t +:+ Render statusStyle ("Waiting for function calls..." +:+ newline), t)
  else
    roots_view fuel now O (orderedRoots t) "" {| rows := [] |} t.

End Renderer.

(** A rendering that keeps the style visible, a width and a [String] method,
    to run the renderer in examples. *)
Definition sample_style_name (s : Style) : string :=
  match s with
  | viewportStyle => "viewport" | logoStyle => "logo"
  | logoUnderscoreStyle => "underscore" | statusStyle => "status"
  | tableHeaderStyle => "header" | pendingStyle => "pending"
  | retryStyle => "retry" | errorStyle => "error" | okStyle => "ok"
  | spinnerStyle => "spinner" | treeStyle => "tree"
  end.
Definition sample_Render (s : Style) (text : string) : string :=
  "<" +:+ sample_style_name s +:+ ">" +:+ text.
Definition sample_StatusName (s : Status) : string := pretty s.

(** ** The event loop *)

(** [tab] and its values. *)
Definition functionsTab : Z := 0.
Definition logsTab : Z := 1.
Definition tabCount : Z := 2.

(** [t.ticks++] on a uint64. *)
Definition uint64_incr (x : Z) : Z := (x + 1) mod 2 ^ 64.

(** The messages [Update] tells apart: [P] is what a [spinner.TickMsg]
    carries, a key message is kept as the text [msg.String()] returns, and
    [otherMsg] is any other message. *)
Inductive Msg (P : Type) : Type :=
  | tickMsg
  | spinner_TickMsg (p : P)
  | WindowSizeMsg (Width Height : Z)
  | KeyMsg (key : string)
  | otherMsg.
Arguments tickMsg {P}.
Arguments spinner_TickMsg {P} p.
Arguments WindowSizeMsg {P} Width Height.
Arguments KeyMsg {P} key.
Arguments otherMsg {P}.

(** The commands [Update] and [Init] return: [tea.Quit], or the batch of
    the commands gathered (the ticker, the command of the spinner, the
    command of the viewport). *)
Inductive SubCmd := tick_cmd | spinner_cmd | viewport_cmd.
Inductive Cmd := Quit | Batch (cmds : list SubCmd).

Definition quit_keys : list string := ["ctrl+c"; "q"; "esc"].
Definition scroll_keys : list string :=
  ["up"; "down"; "left"; "right"; "pgup"; "pgdown"; "ctrl+u"; "ctrl+d"].

Section EventLoop.

(** What the bubbles library provides: the viewport model [V] with its
    constructor, the assignments to its exported fields and its [Update];
    the [Update] of the spinner, on the frame it shows, and the frame of a
    new spinner. *)
Variable V : Type.
Variable P : Type.
Variable viewport_New : Z -> Z -> V.
Variable viewport_set_Style : Style -> V -> V.
Variable viewport_set_Width : Z -> V -> V.
Variable viewport_set_Height : Z -> V -> V.
Variable viewport_Update : Msg P -> V -> V.
Variable spinner_Update : P -> string -> string.
Variable spinner_New : string.

(** The [TUI] with the fields the event loop owns (the help model and the
    key bindings, which are only displayed, are left out). *)
Record Model := mkModel {
  tui : TUI;
  viewport : V;
  ready : bool;
  activeTab : Z;
  tail : bool;
  windowHeight : Z
}.

Definition set_tui (v : TUI) (m : Model) : Model :=
  mkModel v (viewport m) (ready m) (activeTab m) (tail m) (windowHeight m).
Definition set_viewport (v : V) (m : Model) : Model :=
  mkModel (tui m) v (ready m) (activeTab m) (tail m) (windowHeight m).
Definition set_activeTab (v : Z) (m : Model) : Model :=
  mkModel (tui m) (viewport m) (ready m) v (tail m) (windowHeight m).
Definition set_tail (v : bool) (m : Model) : Model :=
  mkModel (tui m) (viewport m) (ready m) (activeTab m) v (windowHeight m).

Definition set_ticks (v : Z) (t : TUI) : TUI :=
  mkTUI v (roots t) (orderedRoots t) (nodes t) (spinner t).
Definition set_spinner (v : string) (t : TUI) : TUI :=
  mkTUI (ticks t) (roots t) (orderedRoots t) (nodes t) v.

(** [Init] *)
Definition Init (m : Model) : Model * Cmd :=
  let m := set_tui (set_spinner spinner_New (tui m)) m in
  let m := set_tail true m in
  let m := set_activeTab functionsTab m in
  (m, Batch [spinner_cmd; tick_cmd]).

(** The [switch] of [Update]: the model after the message, the commands
    gathered, and whether [Update] returns at once with [tea.Quit]. *)
Definition handle (msg : Msg P) (m : Model) : Model * list SubCmd * bool :=
  match msg with
  | tickMsg =>
      (set_tui (set_ticks (uint64_incr (ticks (tui m))) (tui m)) m, [tick_cmd], false)
  | spinner_TickMsg p =>
      (* Forward this tick to the spinner model so that it updates. *)
      (set_tui (set_spinner (spinner_Update p (spinner (tui m))) (tui m)) m,
       [spinner_cmd], false)
  | WindowSizeMsg Width Height =>
      (* Initialize or resize the viewport. *)
      let height := int_sub Height 1 in (* reserve space for help *)
      let width := Width in
      let vp :=
        if ready m then viewport_set_Height height (viewport_set_Width width (viewport m))
        else viewport_set_Style viewportStyle (viewport_New width height) in
      (mkModel (tui m) vp true (activeTab m) (tail m) Height, [], false)
  | KeyMsg key =>
      if bool_decide (key ∈ quit_keys) then (m, [], true)
      else if bool_decide (key = "t") then (set_tail true m, [], false)
      else if bool_decide (key = "tab") then
        (set_activeTab (Z.rem (int_add (activeTab m) 1) tabCount) m, [], false)
      else if bool_decide (key ∈ scroll_keys) then (set_tail false m, [], false)
      else (m, [], false)
  | otherMsg => (m, [], false)
  end.

(** [Update]: unless it quits, the message is forwarded to the viewport. *)
Definition Update (msg : Msg P) (m : Model) : Model * Cmd :=
  let '(m, cmds, quit) := handle msg m in
  if quit : bool then (m, Quit)
  else (set_viewport (viewport_Update msg (viewport m)) m, Batch (cmds ++ [viewport_cmd])).

(** A run of messages; it stops at the first that quits. *)
Fixpoint Update_all (msgs : list (Msg P)) (m : Model) : Model * bool :=
  match msgs with
  | [] => (m, false)
  | msg :: msgs' =>
      match Update msg m with
      | (m', Quit) => (m', true)
      | (m', Batch _) => Update_all msgs' m'
      end
  end.

End EventLoop.

Arguments tui {V} m.
Arguments viewport {V} m.
Arguments ready {V} m.
Arguments activeTab {V} m.
Arguments tail {V} m.
Arguments windowHeight {V} m.

(** ** What the specification says, in its own words *)

(** §4.2, [isTerminal(outcomeCode)]: false for the fixed set, true for every
    other code. *)
Definition isTerminal_outcome_spec (code : Status) : bool :=
  negb (bool_decide (code ∈ [ Status_STATUS_TIMEOUT; Status_STATUS_THROTTLED;
                              Status_STATUS_TEMPORARY_ERROR; Status_STATUS_INCOMPATIBLE_STATE;
                              Status_STATUS_DNS_ERROR; Status_STATUS_TCP_ERROR;
                              Status_STATUS_TLS_ERROR; Status_STATUS_HTTP_ERROR ])).

(** §4.2, [isTerminal(transportStatusCode)]: 4xx true except 408 and 429,
    5xx false except 501, anything else true. *)
Definition isTerminal_transport_spec (code : Z) : bool :=
  if (400 <=? code) && (code <=? 499) then
    negb (bool_decide (code = 408 \/ code = 429))
  else if (500 <=? code) && (code <=? 599) then
    bool_decide (code = 501)
  else true.

(** §4.3, Attempts, read as a sum: failures, plus one if running, plus one
    if done-with-success, plus one if [responses > failures] while neither
    running nor succeeded, clamped to a minimum of 1.  [n] is the node as
    rendered. *)
Definition attempts_spec (n : node) : Z :=
  let succeeded := done n && (status n =? Status_STATUS_OK) in
  Z.max
    (failures n
     + (if running n then 1 else 0)
     + (if succeeded then 1 else 0)
     + (if (failures n <? responses n) && negb (running n) && negb succeeded then 1 else 0))
    1.

(** ** Notions the statements use *)

(** The local copy of a node after the judgment of [buildRows], and
    whether it counts as done with success. *)
Definition rendered (now : Time) (n : node) : node := (judge now n).1.1.

Definition succeeded (now : Time) (n : node) : bool :=
  done (rendered now n) && (status (rendered now n) =? Status_STATUS_OK).

(** A node is judged expired when it is not done and its deadline is set
    and before [now]. *)
Definition expired (now : Time) (n : node) : bool :=
  negb (done n) && negb (IsZero (expirationTime n)) && Before (expirationTime n) now.

(** The node under key [k] once root and node of the request are upserted
    (before the parent is linked), and once the request is fully observed. *)
Definition requested_node (now : Time) (req : RunRequest) (t : TUI) (k : DispatchID)
  : option node :=
  if bool_decide (k = DispatchId req) then Some (upsert_node now req (node_at t k))
  else if bool_decide (k = RootDispatchId req) then Some (node_at t k)
  else lookup_node t k.

Definition linked_node (now : Time) (req : RunRequest) (t : TUI) (k : DispatchID)
  : option node :=
  if bool_decide (ParentDispatchId req ≠ "" ∧ k = ParentDispatchId req)
  then link_child (DispatchId req) <$> requested_node now req t k
  else requested_node now req t k.

(** The request names a parent that is found neither in the store nor among
    the two nodes the request itself upserts. *)
Definition missing_parent (req : RunRequest) (t : TUI) : Prop :=
  ParentDispatchId req ≠ ""
  ∧ lookup_node t (ParentDispatchId req) = None
  ∧ ParentDispatchId req ≠ RootDispatchId req
  ∧ ParentDispatchId req ≠ DispatchId req.


(** In a node the ordered child list has no duplicate and lists exactly the
    members of the child set; in the store the same holds of the ordered
    roots and the root set. *)
Definition wf_node (n : node) : Prop :=
  NoDup (orderedChildren n)
  ∧ ∀ x, x ∈ orderedChildren n ↔ x ∈ default ∅ (children n).

Definition wf_store (t : TUI) : Prop :=
  NoDup (orderedRoots t)
  ∧ (∀ x, x ∈ orderedRoots t ↔ x ∈ default ∅ (roots t))
  ∧ ∀ k n, lookup_node t k = Some n → wf_node n.

(** The events of a run of requests only. *)
Definition requests (rs : list (Time * RunRequest)) : list event :=
  (λ x, Request x.1 x.2) <$> rs.


(** The subtree of [id] is at most [depth] levels deep (a node counts for
    one level). *)
Fixpoint depth_within (t : TUI) (depth : nat) (id : DispatchID) : Prop :=
  match depth with
  | O => False
  | S d => Forall (depth_within t d) (orderedChildren (node_at t id))
  end.

(** Every registered root and every listed child has a node in the store. *)
Definition closed_store (t : TUI) : Prop :=
  (∀ r, r ∈ orderedRoots t → is_Some (lookup_node t r))
  ∧ ∀ k n c, lookup_node t k = Some n → c ∈ orderedChildren n → is_Some (lookup_node t c).


(** What [time.Now()] returned while the event was observed. *)
Definition event_time (ev : event) : Time :=
  match ev with
  | Request now _ => now
  | Response now _ _ _ _ => now
  end.

(** Whether [p] is [s] with some bytes removed at the end. *)
Definition string_prefix (p s : string) : Prop := ∃ q, s = p +:+ q.

(** The spinner column of a row is empty or the styled frame. *)
Definition spinner_cell (Render : Style -> string -> string) (frame : string) (r : row.t)
  : Prop :=
  row.spinner r = "" ∨ row.spinner r = Render spinnerStyle frame.

(** Messages by kind: the key [k], a key that quits, the ticker. *)
Definition is_key {P : Type} (k : string) (msg : Msg P) : bool :=
  match msg with
  | KeyMsg k' => bool_decide (k' = k)
  | _ => false
  end.

Definition is_quit {P : Type} (msg : Msg P) : bool :=
  match msg with
  | KeyMsg k => bool_decide (k ∈ quit_keys)
  | _ => false
  end.

Definition is_tick {P : Type} (msg : Msg P) : bool :=
  match msg with
  | tickMsg => true
  | _ => false
  end.

(** What a key says about tailing: [t] asks for it, a scroll key ends it. *)
Definition tail_key {P : Type} (msg : Msg P) : option bool :=
  match msg with
  | KeyMsg k =>
      if bool_decide (k = "t") then Some true
      else if bool_decide (k ∈ scroll_keys) then Some false
      else None
  | _ => None
  end.

(** The height a window size message carries. *)
Definition resize_height {P : Type} (msg : Msg P) : option Z :=
  match msg with
  | WindowSizeMsg _ Height => Some Height
  | _ => None
  end.

(** The messages of a run before the first key that quits. *)
Fixpoint processed {P : Type} (msgs : list (Msg P)) : list (Msg P) :=
  match msgs with
  | [] => []
  | msg :: msgs' => if is_quit msg then [] else msg :: processed msgs'
  end.

Fixpoint count_msgs {P : Type} (f : Msg P -> bool) (msgs : list (Msg P)) : nat :=
  match msgs with
  | [] => O
  | msg :: msgs' => ((if f msg then 1 else 0) + count_msgs f msgs')%nat
  end.

(** ** Concrete requests, responses and stores *)

Definition req_A : RunRequest :=
  {| RootDispatchId := "A"; ParentDispatchId := ""; DispatchId := "A";
     Function := "f"; CreationTime := None; ExpirationTime := None |}.

(** A request of [A] that names [A] as its own parent. *)
Definition req_A_self : RunRequest :=
  {| RootDispatchId := "A"; ParentDispatchId := "A"; DispatchId := "A";
     Function := "f"; CreationTime := None; ExpirationTime := None |}.


(** A request of [A] created at 1ms that expires at 3.5ms. *)
Definition req_A_deadline : RunRequest :=
  {| RootDispatchId := "A"; ParentDispatchId := ""; DispatchId := "A";
     Function := "f"; CreationTime := Some 1000000; ExpirationTime := Some 3500000 |}.

Definition child_of (root parent id fn : string) : RunRequest :=
  {| RootDispatchId := root; ParentDispatchId := parent; DispatchId := id;
     Function := fn; CreationTime := None; ExpirationTime := None |}.

Definition exit_with (s : Status) : RunResponse :=
  {| Status_ := s; Directive_ := RunResponse_Exit {| Result := None; TailCall := None |} |}.

Definition tail_call_with (s : Status) (g : string) : RunResponse :=
  {| Status_ := s;
     Directive_ := RunResponse_Exit
                     {| Result := None; TailCall := Some {| Call_Function := g |} |} |}.


(** The node under [id] after a run of events from the empty store. *)
Definition node_after (evs : list event) (id : DispatchID) : outcome node :=
  t ← observe_all evs TUI_zero; Returns (node_at t id).

(** The store in which [A] has been requested at 100 and has exited with
    success at 200. *)
Definition node_A_done : node :=
  mkNode "f" 0 1 Status_STATUS_OK None false true 100 0 200 None [].

Definition store_A_done : TUI :=
  mkTUI 0 (Some {["A"]}) ["A"] (Some {["A" := node_A_done]}) "".

(** The store after a run of events from the empty store (the empty store
    itself if the run does not return). *)
Definition run_from_empty (evs : list event) : TUI :=
  match observe_all evs TUI_zero with
  | Returns t => t
  | _ => TUI_zero
  end.

(** The chain A -> a -> b -> c, observed twice. *)
Definition chain : list (Time * RunRequest) :=
  [ (1, req_A);
    (2, child_of "A" "A" "a" "fa");
    (3, child_of "A" "a" "b" "fb");
    (4, child_of "A" "b" "c" "fc") ].

Definition sample_width (s : string) : Z := Z.of_nat (String.length s).
Definition sample_DurationString (d : Duration) : string := pretty d +:+ "ns".

(** A model whose viewport is the list of the messages forwarded to it and
    whose spinner frame grows by one dot per tick. *)
Definition sample_model : Model (list (Msg unit)) :=
  mkModel (list (Msg unit)) TUI_zero [] false logsTab false 0.

Definition sample_Update_all (msgs : list (Msg unit)) (m : Model (list (Msg unit)))
  : Model (list (Msg unit)) * bool :=
  Update_all (list (Msg unit)) unit (fun _ _ => []) (fun _ v => v) (fun _ v => v)
    (fun _ v => v) (fun msg v => v ++ [msg]) (fun _ frame => frame +:+ ".") msgs m.

(** * Properties *)

Lemma wrap64_id (z : Z) : int_min <= z <= int_max -> wrap64 z = z.
Proof.
  unfold wrap64, int_min, int_max. intros H.
  rewrite Z.mod_small; lia.
Qed.

Lemma int_incr_exact (z : Z) : int_min <= z < int_max -> int_incr z = z + 1.
Proof.
  intros H. unfold int_incr, int_add. apply wrap64_id. unfold int_min, int_max in *. lia.
Qed.

(** ** The status classifiers *)

Lemma terminalStatus_spec (s : Status) : terminalStatus s = isTerminal_outcome_spec s.
Proof.
  unfold terminalStatus, isTerminal_outcome_spec.
  destruct (bool_decide _) eqn:E.
  - apply bool_decide_eq_true in E. simpl.
    repeat (apply elem_of_cons in E; destruct E as [-> | E]; [reflexivity |]).
    by apply elem_of_nil in E.
  - apply bool_decide_eq_false in E. simpl.
    repeat match goal with
           | |- context [?a =? ?b] =>
               destruct (Z.eqb_spec a b) as [-> | _];
               [ exfalso; apply E; set_solver | simpl ]
           end.
    reflexivity.
Qed.

Lemma terminalHTTPStatusCode_spec (code : Z) :
  terminalHTTPStatusCode code = isTerminal_transport_spec code.
Proof.
  unfold terminalHTTPStatusCode, isTerminal_transport_spec.
  unfold StatusRequestTimeout, StatusTooManyRequests, StatusNotImplemented.
  destruct (Z.leb_spec 400 code), (Z.leb_spec code 499); simpl.
  - replace (code `quot` 100) with 4 by (apply Z.quot_unique with (code - 400); lia).
    repeat case_bool_decide; lia.
  - destruct (Z.leb_spec 500 code), (Z.leb_spec code 599); simpl; try lia.
    + replace (code `quot` 100) with 5 by (apply Z.quot_unique with (code - 500); lia).
      case_bool_decide; lia.
    + assert (6 <= code `quot` 100) by (apply Z.quot_le_lower_bound; lia).
      destruct (code `quot` 100) as [|q|q] eqn:Q; try lia.
      do 3 (destruct q as [q|q|]; try lia).
  - destruct (Z.leb_spec 500 code); simpl; try lia.
    assert (code `quot` 100 < 4).
    { destruct (Z.le_gt_cases 0 code).
      - apply Z.quot_lt_upper_bound; lia.
      - pose proof (Z.quot_opp_l code 100 ltac:(lia)).
        assert (0 <= (- code) `quot` 100) by (apply Z.quot_pos; lia). lia. }
    destruct (code `quot` 100) as [|q|q] eqn:Q; try reflexivity.
    do 3 (destruct q as [q|q|]; try lia; try reflexivity).
  - lia.
Qed.

(** C3: the classification is total and follows the two tables: an outcome
    code is non-terminal exactly when it is one of timeout, throttled,
    temporary error, stale state, DNS, TCP, TLS or HTTP error (every other
    number, recognized or not, is terminal); a transport status is
    terminal for 4xx except 408 and 429, non-terminal for 5xx except 501,
    and terminal for anything else. *)
Theorem terminal_classification :
  (forall s : Status,
     terminalStatus s = false <->
     s ∈ [ Status_STATUS_TIMEOUT; Status_STATUS_THROTTLED; Status_STATUS_TEMPORARY_ERROR;
           Status_STATUS_INCOMPATIBLE_STATE; Status_STATUS_DNS_ERROR; Status_STATUS_TCP_ERROR;
           Status_STATUS_TLS_ERROR; Status_STATUS_HTTP_ERROR ])
  /\ (forall s : Status, terminalStatus s = isTerminal_outcome_spec s)
  /\ (forall code : Z, terminalHTTPStatusCode code = isTerminal_transport_spec code)
  /\ terminalHTTPStatusCode 200 = true
  /\ terminalHTTPStatusCode 404 = true
  /\ terminalHTTPStatusCode 408 = false
  /\ terminalHTTPStatusCode 429 = false
  /\ terminalHTTPStatusCode 500 = false
  /\ terminalHTTPStatusCode 501 = true
  /\ terminalHTTPStatusCode 503 = false.
Proof.
  split; [| split; [apply terminalStatus_spec | split; [apply terminalHTTPStatusCode_spec |]]].
  - intros s. rewrite terminalStatus_spec. unfold isTerminal_outcome_spec.
    rewrite negb_false_iff, bool_decide_eq_true. reflexivity.
  - repeat split; reflexivity.
Qed.

(** ** Rows *)

Lemma rendered_counters (now : Time) (n : node) :
  failures (rendered now n) = failures n
  /\ responses (rendered now n) = responses n
  /\ running (rendered now n) = running n
  /\ status (rendered now n) = status n
  /\ function (rendered now n) = function n
  /\ creationTime (rendered now n) = creationTime n
  /\ done (rendered now n) = done n || expired now n.
Proof.
  unfold rendered, judge, expired.
  destruct (done n) eqn:D; simpl; [by rewrite D|].
  destruct (negb (IsZero (expirationTime n)) && Before (expirationTime n) now) eqn:E;
    simpl; by rewrite ?D.
Qed.

Section RowFacts.

Variable Render : Style -> string -> string.
Variable StatusName : Status -> string.

Lemma build_row_attempts (now : Time) (sp : string) (isLast : list bool) (n : node) :
  row.attempts (build_row Render StatusName now sp isLast n)
  = Z.max (if running n then int_incr (failures n)
           else if succeeded now n then int_incr (failures n)
           else if failures n <? responses n then int_incr (failures n)
           else failures n) 1.
Proof.
  unfold build_row, succeeded, rendered.
  destruct (judge now n) as [[n' style] pending] eqn:J.
  pose proof (rendered_counters now n) as (Hf & Hr & Hrun & _).
  unfold rendered in *. rewrite J in *. simpl in *.
  rewrite Hf, Hr, Hrun.
  destruct (running n); simpl.
  - reflexivity.
  - destruct (error n'); [reflexivity|].
    destruct (negb (status n' =? Status_STATUS_UNSPECIFIED)); [reflexivity|].
    destruct (pending && (0 <? responses n)); reflexivity.
Qed.

(** C4 (amended): for a failures count below the largest int, the
    attempts of a row are the failures plus one if the node is running,
    otherwise plus one if it is done with success, otherwise plus one if
    [responses > failures], and at least 1.  This is the sum of the
    specification whenever the node is not at once running and done with
    success, and a node with no failure, not running and without
    response shows 1. *)
Theorem attempts_count (now : Time) (sp : string) (isLast : list bool) (n : node) :
  int_min <= failures n < int_max ->
  let r := build_row Render StatusName now sp isLast n in
  row.attempts r
  = Z.max (failures n
           + (if running n then 1
              else if succeeded now n then 1
              else if failures n <? responses n then 1
              else 0)) 1
  /\ (running n && succeeded now n = false -> row.attempts r = attempts_spec (rendered now n))
  /\ (failures n = 0 -> running n = false -> responses n = 0 -> row.attempts r = 1).
Proof.
  intros Hrange r. subst r. rewrite build_row_attempts.
  rewrite (int_incr_exact _ Hrange).
  split; [| split].
  - destruct (running n); [lia|].
    destruct (succeeded now n); [lia|].
    destruct (failures n <? responses n); f_equal; lia.
  - intros Hex. unfold attempts_spec.
    pose proof (rendered_counters now n) as (-> & -> & -> & _).
    fold (succeeded now n).
    destruct (running n), (succeeded now n), (failures n <? responses n);
      simpl in *; try discriminate; f_equal; lia.
  - intros H0 Hrun Hresp. rewrite Hrun, H0, Hresp. simpl.
    destruct (succeeded now n); reflexivity.
Qed.


End RowFacts.

(** ** The store after a request *)

Lemma upserted_lookup (now : Time) (req : RunRequest) (t : TUI) (k : DispatchID) :
  let nodes0 := default ∅ (nodes t) in
  let nodes1 := <[RootDispatchId req := default node_zero (nodes0 !! RootDispatchId req)]> nodes0 in
  <[DispatchId req := upsert_node now req (default node_zero (nodes1 !! DispatchId req))]> nodes1 !! k
  = requested_node now req t k.
Proof.
  intros nodes0 nodes1. unfold requested_node, node_at, lookup_node.
  assert (Hget : forall j, nodes t ≫= (.!! j) = nodes0 !! j).
  { intros j. subst nodes0. destruct (nodes t); simpl; [done | by rewrite lookup_empty]. }
  rewrite !Hget.
  case_bool_decide as Hk.
  - subst k. rewrite lookup_insert_eq. do 2 f_equal. subst nodes1.
    destruct (decide (RootDispatchId req = DispatchId req)) as [->|Hne].
    + by rewrite lookup_insert_eq.
    + by rewrite lookup_insert_ne.
  - rewrite lookup_insert_ne by done. subst nodes1.
    case_bool_decide as Hr.
    + subst k. by rewrite lookup_insert_eq.
    + by rewrite lookup_insert_ne.
Qed.

Lemma requested_node_None (now : Time) (req : RunRequest) (t : TUI) :
  ParentDispatchId req ≠ "" ->
  requested_node now req t (ParentDispatchId req) = None <-> missing_parent req t.
Proof.
  intros Hp. unfold requested_node, missing_parent.
  repeat case_bool_decide; naive_solver.
Qed.

Lemma ObserveRequest_panics (now : Time) (req : RunRequest) (t : TUI) :
  missing_parent req t -> ObserveRequest now req t = Panics "not implemented".
Proof.
  intros Hm. pose proof Hm as (Hp & _ & Hr & _).
  apply (requested_node_None now) in Hm; [|done].
  unfold ObserveRequest, parseID.
  destruct (upsert_root _ _ _) as [roots1 orderedRoots1].
  rewrite (bool_decide_eq_true_2 _ Hp).
  rewrite (upserted_lookup now req t (ParentDispatchId req)), Hm.
  by rewrite (bool_decide_eq_true_2 _ Hr).
Qed.

Lemma ObserveRequest_returns (now : Time) (req : RunRequest) (t : TUI) :
  ¬ missing_parent req t ->
  exists t',
    ObserveRequest now req t = Returns t'
    /\ ticks t' = ticks t
    /\ spinner t' = spinner t
    /\ roots t' = Some (upsert_root (RootDispatchId req) (default ∅ (roots t)) (orderedRoots t)).1
    /\ orderedRoots t' = (upsert_root (RootDispatchId req) (default ∅ (roots t)) (orderedRoots t)).2
    /\ (exists m, nodes t' = Some m)
    /\ forall k, lookup_node t' k = linked_node now req t k.
Proof.
  intros Hm. unfold ObserveRequest, parseID.
  destruct (upsert_root _ _ _) as [roots1 orderedRoots1]. simpl.
  case_bool_decide as Hp.
  - rewrite (upserted_lookup now req t (ParentDispatchId req)).
    destruct (requested_node now req t (ParentDispatchId req)) as [p|] eqn:Hreq.
    + simpl. eexists. split; [reflexivity|]. simpl.
      do 4 (split; [done|]). split; [eauto|].
      intros k. unfold lookup_node, linked_node. simpl.
      case_bool_decide as Hk.
      * destruct Hk as [_ ->]. by rewrite lookup_insert_eq, Hreq.
      * rewrite lookup_insert_ne by naive_solver. apply upserted_lookup.
    + exfalso. apply Hm. by apply (requested_node_None now).
  - eexists. split; [reflexivity|]. simpl.
    do 4 (split; [done|]). split; [eauto|].
    intros k. unfold lookup_node, linked_node. simpl.
    rewrite bool_decide_eq_false_2 by naive_solver. apply upserted_lookup.
Qed.

Lemma missing_parent_dec (req : RunRequest) (t : TUI) :
  missing_parent req t \/ ¬ missing_parent req t.
Proof.
  unfold missing_parent.
  destruct (decide (ParentDispatchId req = "")); [naive_solver|].
  destruct (lookup_node t (ParentDispatchId req)); [naive_solver|].
  destruct (decide (ParentDispatchId req = RootDispatchId req)); [naive_solver|].
  destruct (decide (ParentDispatchId req = DispatchId req)); naive_solver.
Qed.

Lemma ObserveRequest_inv (now : Time) (req : RunRequest) (t t' : TUI) :
  ObserveRequest now req t = Returns t' ->
  ¬ missing_parent req t
  /\ ticks t' = ticks t
  /\ spinner t' = spinner t
  /\ roots t' = Some (upsert_root (RootDispatchId req) (default ∅ (roots t)) (orderedRoots t)).1
  /\ orderedRoots t' = (upsert_root (RootDispatchId req) (default ∅ (roots t)) (orderedRoots t)).2
  /\ (exists m, nodes t' = Some m)
  /\ forall k, lookup_node t' k = linked_node now req t k.
Proof.
  intros H. destruct (missing_parent_dec req t) as [Hm|Hm].
  - rewrite (ObserveRequest_panics now _ _ Hm) in H. discriminate.
  - split; [done|].
    destruct (ObserveRequest_returns now req t Hm) as (t'' & E & R).
    rewrite E in H. by injection H as <-.
Qed.

(** ** The store after a response *)

Lemma ObserveResponse_nil (now : Time) (req : RunRequest) (err : option string)
    (httpRes : option Z) (res : option RunResponse) (t : TUI) :
  nodes t = None ->
  ObserveResponse now req err httpRes res t = Panics "assignment to entry in nil map".
Proof. intros H. unfold ObserveResponse. by rewrite H. Qed.

Lemma ObserveResponse_returns (now : Time) (req : RunRequest) (err : option string)
    (httpRes : option Z) (res : option RunResponse) (t : TUI) (m : gmap string node) :
  nodes t = Some m ->
  exists t',
    ObserveResponse now req err httpRes res t = Returns t'
    /\ ticks t' = ticks t
    /\ spinner t' = spinner t
    /\ roots t' = roots t
    /\ orderedRoots t' = orderedRoots t
    /\ (exists m', nodes t' = Some m')
    /\ forall k,
         lookup_node t' k
         = if bool_decide (k = DispatchId req)
           then Some (observe_response now err httpRes res (node_at t k))
           else lookup_node t k.
Proof.
  intros H. unfold ObserveResponse, parseID. rewrite H.
  eexists. split; [reflexivity|]. simpl. do 4 (split; [done|]). split; [eauto|].
  intros k. unfold lookup_node. simpl. rewrite H. simpl.
  case_bool_decide as Hk.
  - subst k. by rewrite lookup_insert_eq.
  - by rewrite lookup_insert_ne.
Qed.

Lemma ObserveResponse_inv (now : Time) (req : RunRequest) (err : option string)
    (httpRes : option Z) (res : option RunResponse) (t t' : TUI) :
  ObserveResponse now req err httpRes res t = Returns t' ->
  ticks t' = ticks t
  /\ spinner t' = spinner t
  /\ roots t' = roots t
  /\ orderedRoots t' = orderedRoots t
  /\ (exists m', nodes t' = Some m')
  /\ forall k,
       lookup_node t' k
       = if bool_decide (k = DispatchId req)
         then Some (observe_response now err httpRes res (node_at t k))
         else lookup_node t k.
Proof.
  intros H. destruct (nodes t) as [m|] eqn:Hm.
  - destruct (ObserveResponse_returns now req err httpRes res t m Hm) as (t'' & E & R).
    rewrite E in H. by injection H as <-.
  - rewrite ObserveResponse_nil in H by done. discriminate.
Qed.




(** A response keeps the children of the node or, on a reset, drops them. *)
Lemma observe_response_children (now : Time) (err : option string) (httpRes : option Z)
    (res : option RunResponse) (n : node) :
  let n' := observe_response now err httpRes res n in
  (children n' = children n /\ orderedChildren n' = orderedChildren n)
  \/ (children n' = None /\ orderedChildren n' = []).
Proof.
  unfold observe_response, observe_exit.
  repeat case_match; simpl; auto.
Qed.

(** ** The done flag across events *)

Lemma link_child_done (id : DispatchID) (p : node) : done (link_child id p) = done p.
Proof. unfold link_child. repeat case_match; reflexivity. Qed.

Lemma upsert_node_done (now : Time) (req : RunRequest) (n : node) :
  done (upsert_node now req n) = done n.
Proof. unfold upsert_node. repeat case_match; reflexivity. Qed.

Lemma linked_node_done (now : Time) (req : RunRequest) (t : TUI) (k : DispatchID) (n : node) :
  lookup_node t k = Some n ->
  exists n', linked_node now req t k = Some n' /\ done n' = done n.
Proof.
  intros Hk.
  assert (exists n', requested_node now req t k = Some n' /\ done n' = done n) as (n1 & E1 & D1).
  { unfold requested_node, node_at. rewrite Hk. simpl.
    repeat case_bool_decide; eexists; (split; [reflexivity|]);
      by rewrite ?upsert_node_done. }
  unfold linked_node. rewrite E1. case_bool_decide; simpl.
  - eexists. split; [reflexivity|]. by rewrite link_child_done.
  - eauto.
Qed.


(** ** Responses for an identifier no request has named *)


(** ** Requests whose parent is missing *)


(** ** A request for a node that exists *)

Lemma upsert_node_fields (now : Time) (req : RunRequest) (n : node) :
  let n' := upsert_node now req n in
  failures n' = failures n
  /\ responses n' = responses n
  /\ status n' = status n
  /\ error n' = error n
  /\ done n' = done n
  /\ doneTime n' = doneTime n
  /\ function n' = Function req
  /\ running n' = true
  /\ creationTime n'
     = (let c := default (creationTime n) (CreationTime req) in
        if IsZero c then now else c)
  /\ expirationTime n' = default (expirationTime n) (ExpirationTime req)
  /\ children n' = children n
  /\ orderedChildren n' = orderedChildren n.
Proof.
  unfold upsert_node.
  destruct (CreationTime req) as [c|], (ExpirationTime req) as [e|]; simpl;
    repeat split; try reflexivity;
    try (destruct (IsZero c) eqn:Hz; simpl; reflexivity);
    try (destruct (IsZero (creationTime n)) eqn:Hz; simpl; reflexivity).
Qed.

Lemma link_child_fields (id : DispatchID) (p : node) :
  let p' := link_child id p in
  failures p' = failures p
  /\ responses p' = responses p
  /\ status p' = status p
  /\ error p' = error p
  /\ done p' = done p
  /\ doneTime p' = doneTime p
  /\ function p' = function p
  /\ running p' = running p
  /\ creationTime p' = creationTime p
  /\ expirationTime p' = expirationTime p.
Proof. unfold link_child. repeat case_match; simpl; repeat split; reflexivity. Qed.


(** ** Resets *)





Section ResetFacts.

Variable Render : Style -> string -> string.
Variable StatusName : Status -> string.



End ResetFacts.

(** ** The shape of the store *)

Lemma wf_node_of_function (f : string) : wf_node (node_of_function f).
Proof. split; [constructor | intros x; simpl; set_solver]. Qed.

Lemma wf_upsert_node (now : Time) (req : RunRequest) (n : node) :
  wf_node n -> wf_node (upsert_node now req n).
Proof.
  intros [H1 H2].
  pose proof (upsert_node_fields now req n) as (_&_&_&_&_&_&_&_&_&_& Hc & Ho).
  unfold wf_node. by rewrite Hc, Ho.
Qed.

Lemma link_child_children (id : DispatchID) (p : node) :
  orderedChildren (link_child id p)
  = (if has_key (children p) id then orderedChildren p else orderedChildren p ++ [id])
  /\ default ∅ (children (link_child id p))
     = (if has_key (children p) id then default ∅ (children p)
        else {[id]} ∪ default ∅ (children p)).
Proof.
  unfold link_child, has_key.
  destruct (children p) as [s|] eqn:Hc; simpl; rewrite ?Hc; simpl;
    case_bool_decide; simpl; rewrite ?Hc; done.
Qed.

Lemma wf_link_child (id : DispatchID) (p : node) : wf_node p -> wf_node (link_child id p).
Proof.
  intros [H1 H2]. destruct (link_child_children id p) as [Ho Hc].
  unfold wf_node. rewrite Ho, Hc. unfold has_key. case_bool_decide as Hin.
  - done.
  - split.
    + apply NoDup_app. split; [done|]. split; [|apply NoDup_singleton].
      intros x Hx Hx'. apply list_elem_of_singleton in Hx'. subst x.
      apply Hin. by apply H2.
    + intros x. rewrite elem_of_app, list_elem_of_singleton, H2. set_solver.
Qed.

Lemma wf_node_at (t : TUI) (k : DispatchID) : wf_store t -> wf_node (node_at t k).
Proof.
  intros (_ & _ & H). unfold node_at.
  destruct (lookup_node t k) eqn:E; simpl; [eauto | apply wf_node_of_function].
Qed.

Lemma wf_observe_response (now : Time) (err : option string) (httpRes : option Z)
    (res : option RunResponse) (n : node) :
  wf_node n -> wf_node (observe_response now err httpRes res n).
Proof.
  intros [H1 H2].
  destruct (observe_response_children now err httpRes res n) as [[Hc Ho] | [Hc Ho]];
    unfold wf_node; rewrite Hc, Ho; [done|].
  split; [constructor | intros x; simpl; set_solver].
Qed.

Lemma wf_TUI_zero : wf_store TUI_zero.
Proof.
  split; [constructor|]. split; [intros x; simpl; set_solver|].
  intros k n H. discriminate.
Qed.

Lemma upsert_root_ordered (rootID : DispatchID) (rs : gset string) (ordered : list string) :
  (upsert_root rootID rs ordered).2
  = (if bool_decide (rootID ∈ rs) then ordered else ordered ++ [rootID])
  /\ (upsert_root rootID rs ordered).1
     = (if bool_decide (rootID ∈ rs) then rs else {[rootID]} ∪ rs).
Proof. unfold upsert_root. by case_bool_decide. Qed.

Lemma wf_requested_node (now : Time) (req : RunRequest) (t : TUI) (k : DispatchID) (q : node) :
  wf_store t -> requested_node now req t k = Some q -> wf_node q.
Proof.
  intros Hwf. unfold requested_node.
  destruct (bool_decide (k = DispatchId req)).
  - intros [= <-]. apply wf_upsert_node. by apply wf_node_at.
  - destruct (bool_decide (k = RootDispatchId req)).
    + intros [= <-]. by apply wf_node_at.
    + destruct Hwf as (_ & _ & H). apply H.
Qed.

Lemma wf_linked_node (now : Time) (req : RunRequest) (t : TUI) (k : DispatchID) (q : node) :
  wf_store t -> linked_node now req t k = Some q -> wf_node q.
Proof.
  intros Hwf. unfold linked_node.
  destruct (bool_decide (ParentDispatchId req ≠ "" ∧ k = ParentDispatchId req)).
  - destruct (requested_node now req t k) as [q'|] eqn:E; simpl; [|discriminate].
    intros [= <-]. apply wf_link_child. by eapply wf_requested_node.
  - by apply wf_requested_node.
Qed.

Lemma wf_ObserveRequest (now : Time) (req : RunRequest) (t t' : TUI) :
  wf_store t -> ObserveRequest now req t = Returns t' -> wf_store t'.
Proof.
  intros Hwf E. pose proof Hwf as (R1 & R2 & R3).
  apply ObserveRequest_inv in E as (_ & _ & _ & Hr & Ho & _ & Hl).
  destruct (upsert_root_ordered (RootDispatchId req) (default ∅ (roots t)) (orderedRoots t))
    as [Uo Ur].
  unfold wf_store. rewrite Hr, Ho, Uo, Ur. simpl.
  split; [| split].
  - case_bool_decide as Hin; [done|].
    apply NoDup_app. split; [done|]. split; [|apply NoDup_singleton].
    intros x Hx Hx'. apply list_elem_of_singleton in Hx'. subst x. apply Hin. by apply R2.
  - intros x. case_bool_decide as Hin; [apply R2|].
    rewrite elem_of_app, list_elem_of_singleton, R2. set_solver.
  - intros k n. rewrite Hl. by apply wf_linked_node.
Qed.

Lemma wf_ObserveResponse (now : Time) (req : RunRequest) (err : option string)
    (httpRes : option Z) (res : option RunResponse) (t t' : TUI) :
  wf_store t -> ObserveResponse now req err httpRes res t = Returns t' -> wf_store t'.
Proof.
  intros Hwf E. pose proof Hwf as (R1 & R2 & R3).
  apply ObserveResponse_inv in E as (_ & _ & Hr & Ho & _ & Hl).
  unfold wf_store. rewrite Hr, Ho. split; [done|]. split; [done|].
  intros k n. rewrite Hl. case_bool_decide.
  - intros [= <-]. apply wf_observe_response. by apply wf_node_at.
  - apply R3.
Qed.

(** Every store reached from the empty one is well formed. *)
Lemma wf_observe_all (evs : list event) :
  forall t t', wf_store t -> observe_all evs t = Returns t' -> wf_store t'.
Proof.
  induction evs as [|ev evs IH]; intros t t' Hwf E; simpl in E.
  - by injection E as <-.
  - destruct (observe ev t) as [t1| |] eqn:E1; simpl in E; try discriminate.
    apply (IH t1); [|done].
    destruct ev; simpl in E1; [by eapply wf_ObserveRequest | by eapply wf_ObserveResponse].
Qed.

(** ** Requests observed again *)

Lemma requested_node_children (now : Time) (req : RunRequest) (t : TUI) (k : DispatchID) :
  let q := default node_zero (requested_node now req t k) in
  children q = children (node_at t k)
  /\ orderedChildren q = orderedChildren (node_at t k).
Proof.
  unfold requested_node.
  destruct (bool_decide (k = DispatchId req)); simpl.
  - pose proof (upsert_node_fields now req (node_at t k)) as (_&_&_&_&_&_&_&_&_&_& Hc & Ho).
    by rewrite Hc, Ho.
  - destruct (bool_decide (k = RootDispatchId req)); done.
Qed.

Lemma link_child_congr (id : DispatchID) (a b : node) :
  children a = children b -> orderedChildren a = orderedChildren b ->
  orderedChildren (link_child id a) = orderedChildren (link_child id b).
Proof.
  intros Hc Ho.
  destruct (link_child_children id a) as [-> _].
  destruct (link_child_children id b) as [-> _].
  by rewrite Hc, Ho.
Qed.

(** The child list of any node after a request that returns. *)
Lemma request_children (now : Time) (req : RunRequest) (t t' : TUI) (p : DispatchID) :
  ObserveRequest now req t = Returns t' ->
  orderedChildren (node_at t' p)
  = if bool_decide (ParentDispatchId req ≠ "" ∧ p = ParentDispatchId req)
    then (if has_key (children (node_at t p)) (DispatchId req)
          then orderedChildren (node_at t p)
          else orderedChildren (node_at t p) ++ [DispatchId req])
    else orderedChildren (node_at t p).
Proof.
  intros E. apply ObserveRequest_inv in E as (Hm & _ & _ & _ & _ & _ & Hl).
  unfold node_at at 1. rewrite Hl. unfold linked_node.
  pose proof (requested_node_children now req t p) as [Hc Ho]. simpl in Hc, Ho.
  case_bool_decide as Hp.
  - destruct (requested_node now req t p) as [q|] eqn:Eq; simpl in *.
    + rewrite (link_child_congr _ q (node_at t p) Hc Ho).
      by destruct (link_child_children (DispatchId req) (node_at t p)) as [-> _].
    + exfalso. destruct Hp as [Hp ->]. apply Hm. by apply (requested_node_None now).
  - done.
Qed.

Lemma request_roots (now : Time) (req : RunRequest) (t t' : TUI) :
  ObserveRequest now req t = Returns t' ->
  orderedRoots t'
  = if bool_decide (RootDispatchId req ∈ default ∅ (roots t))
    then orderedRoots t else orderedRoots t ++ [RootDispatchId req].
Proof.
  intros E. apply ObserveRequest_inv in E as (_ & _ & _ & _ & Ho & _).
  rewrite Ho. apply upsert_root_ordered.
Qed.

(** A request only appends: roots and children keep their order. *)
Lemma request_appends (now : Time) (req : RunRequest) (t t' : TUI) :
  ObserveRequest now req t = Returns t' ->
  orderedRoots t `prefix_of` orderedRoots t'
  /\ forall p, orderedChildren (node_at t p) `prefix_of` orderedChildren (node_at t' p).
Proof.
  intros E. split.
  - rewrite (request_roots _ _ _ _ E). case_bool_decide; [done | by apply prefix_app_r].
  - intros p. rewrite (request_children _ _ _ _ p E).
    repeat case_match; try done; by apply prefix_app_r.
Qed.

(** After a request, its root is registered and its node is linked below
    its parent. *)
Lemma request_registers (now : Time) (req : RunRequest) (t t' : TUI) :
  wf_store t ->
  ObserveRequest now req t = Returns t' ->
  RootDispatchId req ∈ orderedRoots t'
  /\ (ParentDispatchId req ≠ "" ->
      DispatchId req ∈ orderedChildren (node_at t' (ParentDispatchId req))).
Proof.
  intros Hwf E. split.
  - rewrite (request_roots _ _ _ _ E). case_bool_decide as Hin.
    + destruct Hwf as (_ & R2 & _). by apply R2.
    + apply elem_of_app. right. by apply list_elem_of_singleton.
  - intros Hp. rewrite (request_children _ _ _ _ _ E).
    rewrite bool_decide_eq_true_2 by done.
    unfold has_key. case_bool_decide as Hin.
    + by apply (wf_node_at t (ParentDispatchId req) Hwf).
    + apply elem_of_app. right. by apply list_elem_of_singleton.
Qed.

(** A request whose root is registered and whose node is already linked
    below its parent changes neither the roots nor any child list. *)
Lemma request_again (now : Time) (req : RunRequest) (t t' : TUI) :
  wf_store t ->
  ObserveRequest now req t = Returns t' ->
  (RootDispatchId req ∈ orderedRoots t -> orderedRoots t' = orderedRoots t)
  /\ ((ParentDispatchId req ≠ "" ->
       DispatchId req ∈ orderedChildren (node_at t (ParentDispatchId req))) ->
      forall p, orderedChildren (node_at t' p) = orderedChildren (node_at t p)).
Proof.
  intros Hwf E. split.
  - intros Hin. rewrite (request_roots _ _ _ _ E).
    destruct Hwf as (_ & R2 & _). by rewrite bool_decide_eq_true_2 by by apply R2.
  - intros Hin p. rewrite (request_children _ _ _ _ _ E).
    case_bool_decide as Hp; [|done]. destruct Hp as [Hp ->].
    unfold has_key. rewrite bool_decide_eq_true_2; [done|].
    by apply (wf_node_at t (ParentDispatchId req) Hwf), Hin.
Qed.

Lemma requests_run (rs : list (Time * RunRequest)) :
  forall t0 t,
    wf_store t0 ->
    observe_all (requests rs) t0 = Returns t ->
    wf_store t
    /\ orderedRoots t0 `prefix_of` orderedRoots t
    /\ (forall p, orderedChildren (node_at t0 p) `prefix_of` orderedChildren (node_at t p))
    /\ forall x, x ∈ rs ->
         RootDispatchId x.2 ∈ orderedRoots t
         /\ (ParentDispatchId x.2 ≠ "" ->
             DispatchId x.2 ∈ orderedChildren (node_at t (ParentDispatchId x.2))).
Proof.
  induction rs as [|[now req] rs IH]; intros t0 t Hwf E; simpl in E.
  - injection E as <-. split; [done|]. split; [done|]. split; [done|].
    intros x Hx. by apply elem_of_nil in Hx.
  - destruct (ObserveRequest now req t0) as [t1| |] eqn:E1; simpl in E; try discriminate.
    pose proof (wf_ObserveRequest _ _ _ _ Hwf E1) as Hwf1.
    destruct (request_appends _ _ _ _ E1) as [P1 P2].
    destruct (request_registers _ _ _ _ Hwf E1) as [G1 G2].
    destruct (IH t1 t Hwf1 E) as (Hwft & Q1 & Q2 & Q3).
    split; [done|]. split; [by trans (orderedRoots t1)|].
    split; [intros p; by trans (orderedChildren (node_at t1 p))|].
    intros x Hx. apply elem_of_cons in Hx as [-> | Hx]; [|by apply Q3]. simpl.
    split.
    + destruct Q1 as [k ->]. apply elem_of_app. by left.
    + intros Hp. destruct (Q2 (ParentDispatchId req)) as [k ->].
      apply elem_of_app. left. by apply G2.
Qed.

Lemma filter_eq_absent (l : list string) (x : string) :
  x ∉ l -> filter (λ k, k = x) l = [].
Proof.
  induction l as [|y l IH]; intros Hx; [done|].
  rewrite filter_cons. apply not_elem_of_cons in Hx as [Hne Hx].
  rewrite decide_False by (intros ->; done). by apply IH.
Qed.

Lemma NoDup_filter_eq_length (l : list string) (x : string) :
  NoDup l -> x ∈ l -> length (filter (λ k, k = x) l) = 1%nat.
Proof.
  induction 1 as [|y l Hy Hl IH]; intros Hx.
  - by apply elem_of_nil in Hx.
  - rewrite filter_cons. apply elem_of_cons in Hx as [-> | Hx].
    + rewrite decide_True by done. by rewrite filter_eq_absent.
    + rewrite decide_False by (intros ->; done). by apply IH.
Qed.

(** C6: after any run of requests from the empty store, the ordered roots
    have no duplicate and hold the root of every request observed, so each
    exactly once; no child list has a duplicate, and the node of every
    request with a parent is in the child list of that parent.  Observing
    again a request with the same parent and identifier leaves every child
    list as it is, one with the same root leaves the roots as they are,
    and any further request only appends to the roots and to the child
    lists, so what was ordered stays in order. *)
Theorem requests_idempotent_structure (rs : list (Time * RunRequest)) (t : TUI) :
  observe_all (requests rs) TUI_zero = Returns t ->
  NoDup (orderedRoots t)
  /\ (forall x, x ∈ rs ->
        length (filter (λ k, k = RootDispatchId x.2) (orderedRoots t)) = 1%nat)
  /\ (forall p, NoDup (orderedChildren (node_at t p)))
  /\ (forall x, x ∈ rs ->
        ParentDispatchId x.2 ≠ "" ->
        length (filter (λ k, k = DispatchId x.2)
                  (orderedChildren (node_at t (ParentDispatchId x.2)))) = 1%nat)
  /\ (forall x now req t',
        x ∈ rs ->
        ParentDispatchId req = ParentDispatchId x.2 ->
        DispatchId req = DispatchId x.2 ->
        ObserveRequest now req t = Returns t' ->
        forall p, orderedChildren (node_at t' p) = orderedChildren (node_at t p))
  /\ (forall x now req t',
        x ∈ rs ->
        RootDispatchId req = RootDispatchId x.2 ->
        ObserveRequest now req t = Returns t' ->
        orderedRoots t' = orderedRoots t)
  /\ (forall now req t',
        ObserveRequest now req t = Returns t' ->
        orderedRoots t `prefix_of` orderedRoots t'
        /\ forall p, orderedChildren (node_at t p) `prefix_of` orderedChildren (node_at t' p)).
Proof.
  intros E.
  destruct (requests_run rs TUI_zero t wf_TUI_zero E) as (Hwf & _ & _ & Hin).
  pose proof Hwf as (R1 & _ & _).
  assert (Hch : forall p, NoDup (orderedChildren (node_at t p))).
  { intros p. by apply (wf_node_at t p Hwf). }
  split; [done|]. split.
  { intros x Hx. apply NoDup_filter_eq_length; [done|]. by apply Hin. }
  split; [done|]. split.
  { intros x Hx Hp. apply NoDup_filter_eq_length; [done|]. by apply Hin. }
  split.
  { intros x now req t' Hx Hp Hid E'.
    destruct (request_again _ _ _ _ Hwf E') as [_ B].
    apply B. rewrite Hp, Hid. by apply Hin. }
  split.
  { intros x now req t' Hx Hr E'.
    destruct (request_again _ _ _ _ Hwf E') as [A _].
    apply A. rewrite Hr. by apply Hin. }
  intros now req t' E'. by apply (request_appends now req).
Qed.

(** ** Rendering reads the store *)

Section RenderFacts.

Variable Render : Style -> string -> string.
Variable PrintableRuneWidth : string -> Z.
Variable DurationString : Duration -> string.
Variable StatusName : Status -> string.

Lemma range_children_store
    (rec : DispatchID -> list bool -> rowBuffer -> TUI -> outcome (rowBuffer * TUI))
    (isLast : list bool) (len : nat) :
  (forall id il rows0 t rows' t',
     rec id il rows0 t = Returns (rows', t') ->
     t' = t /\ exists more, rows rows' = rows rows0 ++ more) ->
  forall ids i rows0 t rows' t',
    range_children rec isLast len i ids rows0 t = Returns (rows', t') ->
    t' = t /\ exists more, rows rows' = rows rows0 ++ more.
Proof.
  intros Hrec. induction ids as [|id ids IH]; intros i rows0 t rows' t' E; simpl in E.
  - injection E as <- <-. split; [done|]. exists []. by rewrite app_nil_r.
  - destruct (rec id _ rows0 t) as [[rows1 t1]| |] eqn:E1; simpl in E; try discriminate.
    apply Hrec in E1 as [-> [m1 H1]].
    apply IH in E as [-> [m2 H2]].
    split; [done|]. exists (m1 ++ m2). by rewrite H2, H1, app_assoc.
Qed.

Lemma buildRows_store (fuel : nat) (now : Time) :
  forall id isLast rows0 t rows' t',
    buildRows Render StatusName fuel now id isLast rows0 t = Returns (rows', t') ->
    t' = t
    /\ exists more,
         rows rows'
         = rows rows0
           ++ build_row Render StatusName now (spinner t) isLast (node_at t id) :: more.
Proof.
  induction fuel as [|fuel IH]; intros id isLast rows0 t rows' t' E; simpl in E;
    [discriminate|].
  apply range_children_store in E as [-> [more H]].
  - split; [done|]. exists more. rewrite H. simpl. by rewrite <- app_assoc.
  - intros id' il r1 t1 r1' t1' E1. apply IH in E1 as [-> [m ->]]. split; [done|]. eauto.
Qed.

Lemma root_view_store (fuel : nat) (now : Time) (i : nat) (rootID : DispatchID)
    (b : string) (buf : rowBuffer) (t : TUI) (b' : string) (buf' : rowBuffer) (t' : TUI) :
  root_view Render PrintableRuneWidth DurationString StatusName fuel now i rootID b buf t
  = Returns (b', buf', t') ->
  t' = t.
Proof.
  unfold root_view. intros E.
  destruct (buildRows _ _ _ _ _ _ _ _) as [[rows1 t1]| |] eqn:E1; simpl in E;
    try discriminate.
  apply buildRows_store in E1 as [-> _].
  destruct (tableHeaderView _ _ _) as [h| |]; simpl in E; try discriminate.
  destruct (foldl _ _ _) as [body| |]; simpl in E; try discriminate.
  by injection E as _ _ <-.
Qed.

Lemma roots_view_store (fuel : nat) (now : Time) :
  forall rootIDs i b buf t b' t',
    roots_view Render PrintableRuneWidth DurationString StatusName fuel now i rootIDs b buf t
    = Returns (b', t') ->
    t' = t.
Proof.
  induction rootIDs as [|rootID rootIDs IH]; intros i b buf t b' t' E; simpl in E.
  - by injection E as _ <-.
  - destruct (root_view _ _ _ _ _ _ _ _ _ _ _) as [[[b1 buf1] t1]| |] eqn:E1; simpl in E;
      try discriminate.
    apply root_view_store in E1 as ->. by apply IH in E.
Qed.

Lemma range_children_more
    (rec rec' : DispatchID -> list bool -> rowBuffer -> TUI -> outcome (rowBuffer * TUI))
    (isLast : list bool) (len : nat) :
  (forall id il rows0 t x, rec id il rows0 t = Returns x -> rec' id il rows0 t = Returns x) ->
  forall ids i rows0 t x,
    range_children rec isLast len i ids rows0 t = Returns x ->
    range_children rec' isLast len i ids rows0 t = Returns x.
Proof.
  intros Hrec. induction ids as [|id ids IH]; intros i rows0 t x E; simpl in *; [done|].
  destruct (rec id _ rows0 t) as [[rows1 t1]| |] eqn:E1; simpl in E; try discriminate.
  rewrite (Hrec _ _ _ _ _ E1). simpl. by apply IH.
Qed.

(** More fuel does not change what [buildRows] returns. *)
Lemma buildRows_more_fuel (fuel : nat) (now : Time) :
  forall id isLast rows0 t x,
    buildRows Render StatusName fuel now id isLast rows0 t = Returns x ->
    buildRows Render StatusName (S fuel) now id isLast rows0 t = Returns x.
Proof.
  induction fuel as [|fuel IH]; intros id isLast rows0 t x E; [discriminate|].
  simpl in E. change (buildRows Render StatusName (S (S fuel)) now id isLast rows0 t)
    with (range_children (buildRows Render StatusName (S fuel) now) isLast
            (length (orderedChildren (node_at t id))) O (orderedChildren (node_at t id))
            (rowBuffer_add (build_row Render StatusName now (spinner t) isLast (node_at t id))
               rows0) t).
  eapply range_children_more; [|exact E]. apply IH.
Qed.

(** C9: rendering leaves the store as it is.  Whenever the functions view
    returns, the store after it is the store before it (every node, the
    root registry and every child list); the same holds of [buildRows],
    whose first new row is the row of the stored node judged on a copy:
    a node judged expired is shown done and failed while the stored node
    keeps its fields.  What [buildRows] returns does not depend on the
    fuel, and on a node without child it returns with the one row added. *)
Theorem render_read_only (fuel : nat) (now : Time) (t : TUI) :
  (forall out t',
     functionCallsView Render PrintableRuneWidth DurationString StatusName fuel now t
     = Returns (out, t') ->
     t' = t)
  /\ (forall id isLast rows0 rows' t',
        buildRows Render StatusName fuel now id isLast rows0 t = Returns (rows', t') ->
        t' = t
        /\ lookup_node t' id = lookup_node t id
        /\ exists more,
             rows rows'
             = rows rows0
               ++ build_row Render StatusName now (spinner t) isLast (node_at t id) :: more)
  /\ (forall id isLast rows0 x,
        buildRows Render StatusName fuel now id isLast rows0 t = Returns x ->
        buildRows Render StatusName (S fuel) now id isLast rows0 t = Returns x)
  /\ (forall id isLast rows0,
        orderedChildren (node_at t id) = [] ->
        buildRows Render StatusName (S fuel) now id isLast rows0 t
        = Returns (rowBuffer_add
                     (build_row Render StatusName now (spinner t) isLast (node_at t id)) rows0,
                   t)).
Proof.
  split; [| split; [| split]].
  - intros out t'. unfold functionCallsView. case_bool_decide.
    + by intros [= _ <-].
    + apply roots_view_store.
  - intros id isLast rows0 rows' t' E. apply buildRows_store in E as [-> H]. done.
  - intros id isLast rows0 x. apply buildRows_more_fuel.
  - intros id isLast rows0 Hleaf. simpl. by rewrite Hleaf.
Qed.

End RenderFacts.

(** * Runs on concrete stores *)

Example store_A_done_reached :
  observe_all [Request 100 req_A; Response 200 req_A None None (Some (exit_with Status_STATUS_OK))]
    TUI_zero
  = Returns store_A_done.
Proof. vm_compute. reflexivity. Qed.





(** C4, counterexample: [A] succeeds and is requested again; the node is
    then running and done with success at once, the sum of the
    specification is 2 and the row shows 1. *)
Lemma attempts_sum_counterexample :
  let n := mkNode "f" 0 1 Status_STATUS_OK None true true 100 0 200 None [] in
  node_after [Request 100 req_A;
              Response 200 req_A None None (Some (exit_with Status_STATUS_OK));
              Request 300 req_A] "A"
  = Returns n
  /\ row.attempts (build_row sample_Render sample_StatusName 400 "" [] n) = 1
  /\ attempts_spec (rendered 400 n) = 2.
Proof. repeat split; vm_compute; reflexivity. Qed.

Lemma attempts_count_witness :
  let n := mkNode "f" 1 2 Status_STATUS_OK None false true 100 0 400 None [] in
  int_min <= failures n < int_max
  /\ row.attempts (build_row sample_Render sample_StatusName 500 "" [] n) = 2.
Proof.
  intros n.
  assert (H : int_min <= failures n < int_max) by (unfold int_min, int_max; simpl; lia).
  split; [exact H|].
  exact (proj1 (attempts_count sample_Render sample_StatusName 500 "" [] n H)).
Defined.



Lemma requests_idempotent_structure_witness :
  let t := run_from_empty (requests (chain ++ chain)) in
  observe_all (requests (chain ++ chain)) TUI_zero = Returns t
  /\ orderedRoots t = ["A"]
  /\ orderedChildren (node_at t "A") = ["a"]
  /\ orderedChildren (node_at t "a") = ["b"]
  /\ orderedChildren (node_at t "b") = ["c"]
  /\ NoDup (orderedRoots t)
  /\ length (filter (λ k, k = "A") (orderedRoots t)) = 1%nat.
Proof.
  intros t.
  assert (H : observe_all (requests (chain ++ chain)) TUI_zero = Returns t)
    by (vm_compute; reflexivity).
  split; [exact H|].
  do 4 (split; [vm_compute; reflexivity|]).
  destruct (requests_idempotent_structure (chain ++ chain) t H) as (N & C & _).
  split; [exact N|].
  apply (C (1, req_A)). apply elem_of_cons. by left.
Defined.




Lemma render_read_only_witness :
  let t := run_from_empty [Request 1000000 req_A_deadline] in
  (exists out,
     functionCallsView sample_Render sample_width sample_DurationString sample_StatusName
       5 5000000 t
     = Returns (out, t))
  /\ expired 5000000 (node_at t "A") = true
  /\ done (node_at t "A") = false.
Proof.
  intros t. split; [| split; vm_compute; reflexivity].
  destruct (functionCallsView sample_Render sample_width sample_DurationString
              sample_StatusName 5 5000000 t) as [[out t']| |] eqn:E.
  - exists out.
    by rewrite (proj1 (render_read_only sample_Render sample_width sample_DurationString
                         sample_StatusName 5 5000000 t) out t' E).
  - vm_compute in E. discriminate.
  - vm_compute in E. discriminate.
Defined.

(** * Further properties of the observer *)

Lemma linked_node_fields (now : Time) (req : RunRequest) (t : TUI) (k : DispatchID) (n' : node) :
  linked_node now req t k = Some n' ->
  failures n' = failures (node_at t k)
  /\ responses n' = responses (node_at t k)
  /\ status n' = status (node_at t k)
  /\ error n' = error (node_at t k)
  /\ done n' = done (node_at t k)
  /\ doneTime n' = doneTime (node_at t k).
Proof.
  assert (Hreq : forall q, requested_node now req t k = Some q ->
                           failures q = failures (node_at t k)
                           /\ responses q = responses (node_at t k)
                           /\ status q = status (node_at t k)
                           /\ error q = error (node_at t k)
                           /\ done q = done (node_at t k)
                           /\ doneTime q = doneTime (node_at t k)).
  { intros q. unfold requested_node.
    destruct (bool_decide (k = DispatchId req)).
    - intros [= <-].
      pose proof (upsert_node_fields now req (node_at t k)) as (F1&F2&F3&F4&F5&F6&_).
      done.
    - destruct (bool_decide (k = RootDispatchId req)).
      + by intros [= <-].
      + intros Hq. unfold node_at. by rewrite Hq. }
  unfold linked_node.
  destruct (bool_decide (ParentDispatchId req ≠ "" ∧ k = ParentDispatchId req)).
  - destruct (requested_node now req t k) as [q|] eqn:E; simpl; [|discriminate].
    intros [= <-].
    pose proof (link_child_fields (DispatchId req) q) as (L1&L2&L3&L4&L5&L6&_).
    rewrite L1, L2, L3, L4, L5, L6. by apply Hreq.
  - apply Hreq.
Qed.

Lemma linked_node_children (now : Time) (req : RunRequest) (t : TUI) (k : DispatchID)
    (n' : node) (c : DispatchID) :
  linked_node now req t k = Some n' ->
  c ∈ orderedChildren n' ->
  c ∈ orderedChildren (node_at t k) \/ c = DispatchId req.
Proof.
  unfold linked_node. intros Hl Hc.
  pose proof (requested_node_children now req t k) as [Hch Hoc]. simpl in Hch, Hoc.
  destruct (bool_decide (ParentDispatchId req ≠ "" ∧ k = ParentDispatchId req)).
  - destruct (requested_node now req t k) as [q|] eqn:E; simpl in *; [|discriminate].
    injection Hl as <-.
    destruct (link_child_children (DispatchId req) q) as [Ho _]. rewrite Ho in Hc.
    destruct (has_key (children q) (DispatchId req)).
    + left. by rewrite <- Hoc.
    + apply elem_of_app in Hc as [Hc | Hc]; [left; by rewrite <- Hoc|].
      right. by apply list_elem_of_singleton in Hc.
  - rewrite Hl in Hoc. simpl in Hoc. left. by rewrite <- Hoc.
Qed.

Lemma requested_node_own (now : Time) (req : RunRequest) (t : TUI) :
  is_Some (linked_node now req t (DispatchId req))
  /\ is_Some (linked_node now req t (RootDispatchId req)).
Proof.
  assert (H1 : is_Some (requested_node now req t (DispatchId req))).
  { unfold requested_node. by rewrite bool_decide_eq_true_2. }
  assert (H2 : is_Some (requested_node now req t (RootDispatchId req))).
  { unfold requested_node. destruct (bool_decide _); [done|].
    by rewrite bool_decide_eq_true_2. }
  unfold linked_node. split.
  - destruct (bool_decide _); [|done]. destruct H1 as [q ->]. by eexists.
  - destruct (bool_decide _); [|done]. destruct H2 as [q ->]. by eexists.
Qed.

Lemma observe_keeps_keys (ev : event) (t t' : TUI) (k : DispatchID) :
  observe ev t = Returns t' -> is_Some (lookup_node t k) -> is_Some (lookup_node t' k).
Proof.
  intros E [n Hn]. destruct ev as [now req | now req err httpRes res]; simpl in E.
  - apply ObserveRequest_inv in E as (_ & _ & _ & _ & _ & _ & Hl).
    destruct (linked_node_done now req t k n Hn) as (n' & En & _).
    rewrite Hl, En. by eexists.
  - apply ObserveResponse_inv in E as (_ & _ & _ & _ & _ & Hl).
    rewrite Hl. destruct (bool_decide _); [by eexists | rewrite Hn; by eexists].
Qed.

Lemma observe_roots_prefix (ev : event) (t t' : TUI) :
  observe ev t = Returns t' -> orderedRoots t `prefix_of` orderedRoots t'.
Proof.
  intros E. destruct ev as [now req | now req err httpRes res]; simpl in E.
  - by apply (request_appends now req).
  - apply ObserveResponse_inv in E as (_ & _ & _ & -> & _). done.
Qed.

Lemma observe_nodes_initialised (ev : event) (t t' : TUI) :
  observe ev t = Returns t' -> is_Some (nodes t').
Proof.
  intros E. destruct ev as [now req | now req err httpRes res]; simpl in E.
  - apply ObserveRequest_inv in E as (_ & _ & _ & _ & _ & [m ->] & _). by eexists.
  - apply ObserveResponse_inv in E as (_ & _ & _ & _ & [m ->] & _). by eexists.
Qed.

(** X1: whatever requests and responses are observed from the empty
    store, in any order, the ordered roots and every ordered child list
    are free of duplicates and list exactly the members of the set kept
    beside them. *)
Theorem reachable_store_wf (evs : list event) (t : TUI) :
  observe_all evs TUI_zero = Returns t ->
  NoDup (orderedRoots t)
  /\ (forall x, x ∈ orderedRoots t <-> x ∈ default ∅ (roots t))
  /\ forall k,
       NoDup (orderedChildren (node_at t k))
       /\ forall x, x ∈ orderedChildren (node_at t k) <-> x ∈ default ∅ (children (node_at t k)).
Proof.
  intros E. pose proof (wf_observe_all evs TUI_zero t wf_TUI_zero E) as Hwf.
  pose proof Hwf as (R1 & R2 & _).
  split; [done|]. split; [done|]. intros k. by apply wf_node_at.
Qed.

(** X2: nothing is ever removed from the store: across any run of events
    that returns, a node that was stored is still stored and the roots
    registered before are still the first ones, in the same order. *)
Theorem never_evicts (evs : list event) :
  forall t t',
    observe_all evs t = Returns t' ->
    orderedRoots t `prefix_of` orderedRoots t'
    /\ forall k, is_Some (lookup_node t k) -> is_Some (lookup_node t' k).
Proof.
  induction evs as [|ev evs IH]; intros t t' E; simpl in E.
  - by injection E as <-.
  - destruct (observe ev t) as [t1| |] eqn:E1; simpl in E; try discriminate.
    destruct (IH t1 t' E) as [P K]. split.
    + trans (orderedRoots t1); [by eapply observe_roots_prefix | done].
    + intros k Hk. apply K. by eapply observe_keeps_keys.
Qed.

(** X3: once any event has been observed, the node map exists and stays,
    so no response panics any more: after a non-empty run that returns,
    [ObserveResponse] returns for every response. *)
Theorem responses_return_after_first_event (evs : list event) (t0 t : TUI) :
  evs ≠ [] ->
  observe_all evs t0 = Returns t ->
  forall now req err httpRes res,
    exists t', ObserveResponse now req err httpRes res t = Returns t'.
Proof.
  intros Hne E.
  assert (Hinit : is_Some (nodes t)).
  { revert t0 E Hne. induction evs as [|ev evs IH]; intros t0 E Hne; [done|].
    simpl in E. destruct (observe ev t0) as [t1| |] eqn:E1; simpl in E; try discriminate.
    destruct evs as [|ev' evs].
    - simpl in E. injection E as <-. by eapply observe_nodes_initialised.
    - by apply (IH t1). }
  destruct Hinit as [m Hm]. intros now req err httpRes res.
  destruct (ObserveResponse_returns now req err httpRes res t m Hm) as (t' & E' & _).
  eauto.
Qed.

(** X4: an event touches only the nodes it names.  A response leaves the
    ticks, the spinner, the roots and every node but the one of its
    identifier as they are; a request leaves the ticks, the spinner and
    every node but those of its root, parent and own identifiers. *)
Theorem events_frame (t t' : TUI) :
  (forall now req err httpRes res,
     ObserveResponse now req err httpRes res t = Returns t' ->
     ticks t' = ticks t /\ spinner t' = spinner t
     /\ roots t' = roots t /\ orderedRoots t' = orderedRoots t
     /\ forall k, k ≠ DispatchId req -> lookup_node t' k = lookup_node t k)
  /\ (forall now req,
        ObserveRequest now req t = Returns t' ->
        ticks t' = ticks t /\ spinner t' = spinner t
        /\ forall k,
             k ≠ RootDispatchId req -> k ≠ ParentDispatchId req -> k ≠ DispatchId req ->
             lookup_node t' k = lookup_node t k).
Proof.
  split.
  - intros now req err httpRes res E.
    apply ObserveResponse_inv in E as (H1 & H2 & H3 & H4 & _ & Hl).
    do 4 (split; [done|]). intros k Hk. by rewrite Hl, bool_decide_eq_false_2.
  - intros now req E.
    apply ObserveRequest_inv in E as (_ & H1 & H2 & _ & _ & _ & Hl).
    do 2 (split; [done|]). intros k Hr Hp Hi. rewrite Hl.
    unfold linked_node, requested_node.
    rewrite bool_decide_eq_false_2 by (intros [_ ?]; done).
    by rewrite !bool_decide_eq_false_2.
Qed.

Lemma closed_observe (ev : event) (t t' : TUI) :
  closed_store t -> observe ev t = Returns t' -> closed_store t'.
Proof.
  intros [CR CC] E.
  assert (Hkeep : forall k, is_Some (lookup_node t k) -> is_Some (lookup_node t' k))
    by (intros k; by apply (observe_keeps_keys ev)).
  assert (Hold : forall k c, c ∈ orderedChildren (node_at t k) -> is_Some (lookup_node t' c)).
  { intros k c Hc. apply Hkeep. unfold node_at in Hc.
    destruct (lookup_node t k) as [n|] eqn:En; simpl in Hc; [by eapply CC|].
    by apply elem_of_nil in Hc. }
  destruct ev as [now req | now req err httpRes res]; simpl in E.
  - pose proof E as E0.
    apply ObserveRequest_inv in E as (_ & _ & _ & _ & _ & _ & Hl).
    destruct (requested_node_own now req t) as [Hid Hroot].
    split.
    + intros r Hr. rewrite (request_roots _ _ _ _ E0) in Hr.
      destruct (bool_decide _).
      * by apply Hkeep, CR.
      * apply elem_of_app in Hr as [Hr | Hr]; [by apply Hkeep, CR|].
        apply list_elem_of_singleton in Hr. subst r. by rewrite Hl.
    + intros k n c Hn Hc. rewrite Hl in Hn.
      destruct (linked_node_children _ _ _ _ _ _ Hn Hc) as [Hc' | ->].
      * by eapply Hold.
      * by rewrite Hl.
  - apply ObserveResponse_inv in E as (_ & _ & _ & Ho & _ & Hl).
    split.
    + intros r Hr. rewrite Ho in Hr. by apply Hkeep, CR.
    + intros k n c Hn Hc. rewrite Hl in Hn.
      destruct (bool_decide (k = DispatchId req)).
      * injection Hn as <-.
        destruct (observe_response_children now err httpRes res (node_at t k))
          as [[_ Ho'] | [_ Ho']]; rewrite Ho' in Hc.
        -- by eapply Hold.
        -- by apply elem_of_nil in Hc.
      * apply Hkeep. by eapply CC.
Qed.

(** X5: the forest has no dangling reference.  After any run of events
    from the empty store, every registered root and every identifier in a
    child list is the key of a stored node, so the renderer never meets an
    identifier without node. *)
Theorem reachable_store_closed (evs : list event) (t : TUI) :
  observe_all evs TUI_zero = Returns t ->
  (forall r, r ∈ orderedRoots t -> is_Some (lookup_node t r))
  /\ forall k c, c ∈ orderedChildren (node_at t k) -> is_Some (lookup_node t c).
Proof.
  intros E.
  assert (Hc : closed_store t).
  { assert (H0 : closed_store TUI_zero).
    { split; [intros r Hr; by apply elem_of_nil in Hr | intros k n c Hn; discriminate]. }
    revert E H0. generalize TUI_zero.
    induction evs as [|ev evs IH]; intros t0 E H0; simpl in E.
    - by injection E as <-.
    - destruct (observe ev t0) as [t1| |] eqn:E1; simpl in E; try discriminate.
      apply (IH t1 E). by apply (closed_observe ev t0). }
  destruct Hc as [CR CC]. split; [done|].
  intros k c Hk. unfold node_at in Hk.
  destruct (lookup_node t k) as [n|] eqn:En; simpl in Hk; [by eapply CC|].
  by apply elem_of_nil in Hk.
Qed.

Lemma observe_response_counters (now : Time) (err : option string) (httpRes : option Z)
    (res : option RunResponse) (n : node) :
  0 <= failures n <= responses n -> responses n < int_max ->
  let n' := observe_response now err httpRes res n in
  0 <= failures n' <= responses n' /\ responses n' <= responses n + 1.
Proof.
  intros Hf Hr.
  assert (Hi : int_incr (responses n) = responses n + 1)
    by (apply int_incr_exact; unfold int_min, int_max in *; lia).
  assert (Hj : int_incr (failures n) = failures n + 1)
    by (apply int_incr_exact; unfold int_min, int_max in *; lia).
  unfold observe_response, observe_exit.
  repeat case_match; simpl; rewrite ?Hi, ?Hj; lia.
Qed.

(** X6: failures never exceed responses.  After a run of [k] events from
    the empty store, with [k] at most the largest int, every stored node
    has [0 <= failures <= responses <= k]. *)
Theorem failures_le_responses (evs : list event) (t : TUI) :
  Z.of_nat (length evs) <= int_max ->
  observe_all evs TUI_zero = Returns t ->
  forall k,
    0 <= failures (node_at t k) <= responses (node_at t k)
    /\ responses (node_at t k) <= Z.of_nat (length evs).
Proof.
  intros Hlen E.
  assert (G : forall evs t0 t (b : Z),
             0 <= b -> b + Z.of_nat (length evs) <= int_max ->
             (forall k, 0 <= failures (node_at t0 k) <= responses (node_at t0 k)
                        /\ responses (node_at t0 k) <= b) ->
             observe_all evs t0 = Returns t ->
             forall k, 0 <= failures (node_at t k) <= responses (node_at t k)
                       /\ responses (node_at t k) <= b + Z.of_nat (length evs)).
  { clear. induction evs as [|ev evs IH]; intros t0 t b Hb Hmax H0 E k; simpl in E.
    - injection E as <-. simpl. specialize (H0 k). lia.
    - destruct (observe ev t0) as [t1| |] eqn:E1; simpl in E; try discriminate.
      simpl length in *. rewrite Nat2Z.inj_succ in *.
      replace (b + Z.succ (Z.of_nat (length evs))) with ((b + 1) + Z.of_nat (length evs)) by lia.
      apply (IH t1 t (b + 1)); [lia | lia | | done].
      intros j. destruct ev as [now req | now req err httpRes res]; simpl in E1.
      + apply ObserveRequest_inv in E1 as (_ & _ & _ & _ & _ & _ & Hl).
        unfold node_at at 1 2 3 4. rewrite Hl.
        destruct (linked_node now req t0 j) as [n'|] eqn:En; simpl.
        * apply linked_node_fields in En as (-> & -> & _). specialize (H0 j). lia.
        * lia.
      + apply ObserveResponse_inv in E1 as (_ & _ & _ & _ & _ & Hl).
        unfold node_at at 1 2 3 4. rewrite Hl.
        destruct (bool_decide (j = DispatchId req)); simpl.
        * specialize (H0 j).
          pose proof (observe_response_counters now err httpRes res (node_at t0 j)
                        ltac:(lia) ltac:(unfold int_max in *; lia)) as Hc.
          simpl in Hc. lia.
        * fold (node_at t0 j). specialize (H0 j). lia. }
  intros k. apply (G evs TUI_zero t 0); [lia | lia | | done].
  intros j. simpl. lia.
Qed.

Lemma observe_response_doneTime (now : Time) (err : option string) (httpRes : option Z)
    (res : option RunResponse) (n : node) :
  let n' := observe_response now err httpRes res n in
  (now ≠ 0 -> done n' = true -> doneTime n' ≠ 0)
  /\ (doneTime n ≠ 0 -> doneTime n' = doneTime n \/ (doneTime n' = 0 /\ done n' = false)).
Proof.
  simpl. split.
  - intros Hnow. unfold observe_response.
    match goal with
    | |- context [if done ?m && IsZero (doneTime ?m) then _ else _] => generalize m
    end.
    intros m. destruct (done m) eqn:Hd; simpl.
    + unfold IsZero. destruct (Z.eqb_spec (doneTime m) 0); simpl; [done|]. by rewrite Hd.
    + by rewrite Hd.
  - intros Hset. unfold observe_response.
    match goal with
    | |- context [if done ?m && IsZero (doneTime ?m) then _ else _] =>
        assert (Hm : doneTime m = doneTime n \/ (doneTime m = 0 /\ done m = false));
        [| generalize dependent m]
    end.
    + unfold observe_exit.
      repeat case_match; simpl; auto;
        right; (split; [reflexivity|]);
        match goal with
        | H : (Status_ _ =? Status_STATUS_INCOMPATIBLE_STATE) = true |- _ =>
            apply Z.eqb_eq in H; rewrite H; reflexivity
        end.
    + intros m [Hm | [Hm Hd]].
      * unfold IsZero. rewrite Hm. destruct (Z.eqb_spec (doneTime n) 0); [done|].
        rewrite andb_false_r. by left.
      * rewrite Hd. simpl. right. done.
Qed.

(** X7: the completion time is written once.  After a run of events from
    the empty store whose clock readings are never the zero time, every
    stored node that is done has its done time set; and a response never
    overwrites a done time that is set: it keeps it, or the node is reset
    (done time unset, not done). *)
Theorem doneTime_discipline (evs : list event) (t : TUI) :
  Forall (λ ev, event_time ev ≠ 0) evs ->
  observe_all evs TUI_zero = Returns t ->
  (forall k, done (node_at t k) = true -> doneTime (node_at t k) ≠ 0)
  /\ forall now err httpRes res k,
       doneTime (node_at t k) ≠ 0 ->
       let n' := observe_response now err httpRes res (node_at t k) in
       doneTime n' = doneTime (node_at t k) \/ (doneTime n' = 0 /\ done n' = false).
Proof.
  intros Hclock E. split.
  - assert (G : forall evs t0 t,
               Forall (λ ev, event_time ev ≠ 0) evs ->
               (forall k, done (node_at t0 k) = true -> doneTime (node_at t0 k) ≠ 0) ->
               observe_all evs t0 = Returns t ->
               forall k, done (node_at t k) = true -> doneTime (node_at t k) ≠ 0).
    { clear. induction evs as [|ev evs IH]; intros t0 t Hclock H0 E; simpl in E.
      - by injection E as <-.
      - destruct (observe ev t0) as [t1| |] eqn:E1; simpl in E; try discriminate.
        apply Forall_cons in Hclock as [Hev Hclock].
        apply (IH t1 t Hclock); [|done].
        intros j. destruct ev as [now req | now req err httpRes res]; simpl in E1, Hev.
        + apply ObserveRequest_inv in E1 as (_ & _ & _ & _ & _ & _ & Hl).
          unfold node_at at 1 2. rewrite Hl.
          destruct (linked_node now req t0 j) as [n'|] eqn:En; simpl; [|done].
          apply linked_node_fields in En as (_ & _ & _ & _ & -> & ->). apply H0.
        + apply ObserveResponse_inv in E1 as (_ & _ & _ & _ & _ & Hl).
          unfold node_at at 1 2. rewrite Hl.
          destruct (bool_decide (j = DispatchId req)); simpl.
          * by apply observe_response_doneTime.
          * apply H0. }
    apply (G evs TUI_zero t Hclock); [|done]. intros k. discriminate.
  - intros now err httpRes res k. apply observe_response_doneTime.
Qed.

(** * Further properties of the renderer *)

Lemma string_app_assoc (a b c : string) : (a +:+ b) +:+ c = a +:+ (b +:+ c).
Proof.
  induction a as [|x a IH]; [reflexivity|].
  change (String x ((a +:+ b) +:+ c) = String x (a +:+ (b +:+ c))). by rewrite IH.
Qed.

Lemma string_app_nil_r (a : string) : a +:+ "" = a.
Proof.
  induction a as [|x a IH]; [reflexivity|].
  change (String x (a +:+ "") = String x a). by rewrite IH.
Qed.

Lemma string_length_app (a b : string) :
  String.length (a +:+ b) = (String.length a + String.length b)%nat.
Proof.
  induction a as [|x a IH]; [reflexivity|].
  change (S (String.length (a +:+ b)) = S (String.length a + String.length b)).
  by rewrite IH.
Qed.

Section TreeFacts.

Variable Render : Style -> string -> string.
Variable StatusName : Status -> string.




Lemma judge_cases (now : Time) (n : node) :
  judge now n
  = if done n then
      (n, (if status n =? Status_STATUS_OK then okStyle else errorStyle), false)
    else if expired now n then
      (set_doneTime (expirationTime n) (set_done true (set_error (Some "Expired") n)),
       errorStyle, false)
    else (n, (if 0 <? failures n then retryStyle else pendingStyle), true).
Proof.
  unfold judge, expired. destruct (done n); simpl; [done|].
  by destruct (negb (IsZero (expirationTime n)) && Before (expirationTime n) now).
Qed.

(** X10: what a row shows first.  A running node shows "Running" in the
    pending style whatever else is recorded on it (error, outcome, done or
    expired); the spinner is drawn exactly on the rows of nodes that are
    neither done nor judged expired. *)
Theorem running_and_spinner (now : Time) (sp : string) (isLast : list bool) (n : node) :
  let r := build_row Render StatusName now sp isLast n in
  (running n = true -> row.status r = Render pendingStyle "Running")
  /\ row.spinner r = (if done n || expired now n then "" else Render spinnerStyle sp).
Proof.
  simpl. unfold build_row. rewrite judge_cases.
  destruct (done n) eqn:Hd; simpl.
  - split; [by intros -> |].
    destruct (running n); [done|]. destruct (error n); [done|].
    by destruct (negb (status n =? Status_STATUS_UNSPECIFIED)).
  - destruct (expired now n); simpl.
    + split; [by intros -> |]. by destruct (running n).
    + split; [by intros -> |].
      destruct (running n); [done|]. destruct (error n); [done|].
      destruct (negb (status n =? Status_STATUS_UNSPECIFIED)); [done|].
      by destruct (0 <? responses n).
Qed.

(** X11: the elapsed time of a row runs from the creation time to the done
    time of a done node, to the deadline of a node judged expired and to
    [now] otherwise, in whole milliseconds, and is zero without creation
    time.  So it no longer depends on [now] once the node is done, nor
    between two renders that both judge it expired. *)
Theorem elapsed_frozen (sp : string) (isLast : list bool) (n : node) :
  (forall now,
     row.elapsed (build_row Render StatusName now sp isLast n)
     = if IsZero (creationTime n) then 0
       else Truncate
              (Sub (if done n then doneTime n
                    else if expired now n then expirationTime n else now)
                 (creationTime n)) Millisecond)
  /\ (forall now1 now2,
        done n = true \/ (expired now1 n = true /\ expired now2 n = true) ->
        row.elapsed (build_row Render StatusName now1 sp isLast n)
        = row.elapsed (build_row Render StatusName now2 sp isLast n)).
Proof.
  assert (F : forall now,
             row.elapsed (build_row Render StatusName now sp isLast n)
             = if IsZero (creationTime n) then 0
               else Truncate
                      (Sub (if done n then doneTime n
                            else if expired now n then expirationTime n else now)
                         (creationTime n)) Millisecond).
  { intros now. unfold build_row. rewrite judge_cases.
    destruct (done n) eqn:Hd; simpl.
    - rewrite Hd. simpl. destruct (IsZero (creationTime n));
        destruct (running n); try done; destruct (error n); try done;
        by destruct (negb (status n =? Status_STATUS_UNSPECIFIED)).
    - destruct (expired now n); simpl.
      + destruct (IsZero (creationTime n)); by destruct (running n).
      + rewrite Hd. simpl. destruct (IsZero (creationTime n));
          destruct (running n); try done; destruct (error n); try done;
          destruct (negb (status n =? Status_STATUS_UNSPECIFIED)); try done;
          by destruct (0 <? responses n). }
  split; [exact F|].
  intros now1 now2 H. rewrite !F.
  destruct H as [-> | [-> ->]]; [done|]. by destruct (done n).
Qed.

End TreeFacts.

Section DepthFacts.

Variable Render : Style -> string -> string.
Variable StatusName : Status -> string.

Lemma range_children_depth
    (rec : DispatchID -> list bool -> rowBuffer -> TUI -> outcome (rowBuffer * TUI))
    (Q : DispatchID -> Prop) (t : TUI) (isLast : list bool) (len : nat) :
  (forall id il rows0,
     (Q id /\ exists rows', rec id il rows0 t = Returns (rows', t))
     \/ (¬ Q id /\ rec id il rows0 t = OutOfFuel)) ->
  forall ids i rows0,
    (Forall Q ids
     /\ exists rows', range_children rec isLast len i ids rows0 t = Returns (rows', t))
    \/ (¬ Forall Q ids /\ range_children rec isLast len i ids rows0 t = OutOfFuel).
Proof.
  intros Hrec. induction ids as [|id ids IH]; intros i rows0; simpl.
  - left. split; [constructor | eauto].
  - destruct (Hrec id (isLast ++ [bool_decide (i = (len - 1)%nat)]) rows0)
      as [[Hq [rows1 ->]] | [Hq ->]]; simpl.
    + destruct (IH (S i) rows1) as [[Hall [rows' ->]] | [Hall ->]].
      * left. split; [by constructor | eauto].
      * right. split; [|done]. intros H. apply Hall. by apply Forall_cons in H as [_ H].
    + right. split; [|done]. intros H. apply Hq. by apply Forall_cons in H as [H _].
Qed.

Lemma buildRows_depth_cases (fuel : nat) (now : Time) (t : TUI) :
  forall id isLast rows0,
    (depth_within t fuel id
     /\ exists rows', buildRows Render StatusName fuel now id isLast rows0 t = Returns (rows', t))
    \/ (¬ depth_within t fuel id
        /\ buildRows Render StatusName fuel now id isLast rows0 t = OutOfFuel).
Proof.
  induction fuel as [|fuel IH]; intros id isLast rows0.
  - right. split; [intros [] | reflexivity].
  - simpl. apply range_children_depth. apply IH.
Qed.

(** X12: how deep the renderer goes.  [buildRows] never panics: with fuel
    for [d] levels it returns, leaving the store as it is, exactly when
    the subtree of the node is at most [d] levels deep, and runs out of
    fuel otherwise. *)
Theorem buildRows_depth (fuel : nat) (now : Time) (t : TUI) (id : DispatchID)
    (isLast : list bool) (rows0 : rowBuffer) :
  (depth_within t fuel id ->
   exists rows', buildRows Render StatusName fuel now id isLast rows0 t = Returns (rows', t))
  /\ (¬ depth_within t fuel id ->
      buildRows Render StatusName fuel now id isLast rows0 t = OutOfFuel)
  /\ forall msg, buildRows Render StatusName fuel now id isLast rows0 t ≠ Panics msg.
Proof.
  destruct (buildRows_depth_cases fuel now t id isLast rows0) as [[H [r E]] | [H E]].
  - split; [eauto|]. split; [done|]. intros msg. rewrite E. discriminate.
  - split; [done|]. split; [done|]. intros msg. rewrite E. discriminate.
Qed.

Lemma own_child_unbounded (t : TUI) (id : DispatchID) :
  id ∈ orderedChildren (node_at t id) -> forall depth, ¬ depth_within t depth id.
Proof.
  intros Hin. induction depth as [|d IH]; simpl; [tauto|].
  intros H. apply IH. rewrite Forall_forall in H. by apply H.
Qed.

(** X13: a request that names its own identifier as parent is accepted
    (on a well formed store it returns) and makes the node its own child;
    from then on [buildRows] on that node runs out of any fuel: the
    recursion over the children does not end. *)
Theorem self_parent_never_renders (now : Time) (req : RunRequest) (t t' : TUI) :
  wf_store t ->
  ParentDispatchId req = DispatchId req ->
  DispatchId req ≠ "" ->
  ObserveRequest now req t = Returns t' ->
  DispatchId req ∈ orderedChildren (node_at t' (DispatchId req))
  /\ forall fuel now' isLast rows0,
       buildRows Render StatusName fuel now' (DispatchId req) isLast rows0 t' = OutOfFuel.
Proof.
  intros Hwf Hp Hid E.
  assert (Hin : DispatchId req ∈ orderedChildren (node_at t' (DispatchId req))).
  { destruct (request_registers _ _ _ _ Hwf E) as [_ H].
    rewrite Hp in H. apply H. done. }
  split; [done|]. intros fuel now' isLast rows0.
  destruct (buildRows_depth_cases fuel now' t' (DispatchId req) isLast rows0)
    as [[H _] | [_ H]]; [|done].
  by apply own_child_unbounded in H.
Qed.

End DepthFacts.

(** ** Cells of the table *)

Lemma string_prefix_refl (s : string) : string_prefix s s.
Proof. exists "". by rewrite string_app_nil_r. Qed.

Lemma string_prefix_nil (s : string) : string_prefix "" s.
Proof. by exists s. Qed.

Lemma string_prefix_trans (p q s : string) :
  string_prefix p q -> string_prefix q s -> string_prefix p s.
Proof.
  intros [a ->] [b ->]. exists (a +:+ b). by rewrite string_app_assoc.
Qed.

Lemma string_prefix_length (p s : string) :
  string_prefix p s -> (String.length p <= String.length s)%nat.
Proof. intros [q ->]. rewrite string_length_app. lia. Qed.

Lemma string_prefix_cons (c : Ascii.ascii) (p s : string) :
  string_prefix p s -> string_prefix (String c p) (String c s).
Proof. intros [q ->]. by exists q. Qed.

Lemma drop_last_byte_length (s : string) :
  String.length (drop_last_byte s) = pred (String.length s).
Proof.
  induction s as [|c s IH]; [reflexivity|].
  destruct s as [|d s]; [reflexivity|].
  change (S (String.length (drop_last_byte (String d s))) = S (String.length s)).
  by rewrite IH.
Qed.

Lemma drop_last_byte_prefix (s : string) : string_prefix (drop_last_byte s) s.
Proof.
  induction s as [|c s IH]; [apply string_prefix_refl|].
  destruct s as [|d s]; [apply string_prefix_nil|].
  change (string_prefix (String c (drop_last_byte (String d s))) (String c (String d s))).
  by apply string_prefix_cons.
Qed.

Lemma string_prefix_drop_last (q s : string) :
  string_prefix q s -> q = s \/ string_prefix q (drop_last_byte s).
Proof.
  revert q. induction s as [|c s IH]; intros q [r E].
  - destruct q; [by left | discriminate].
  - destruct q as [|c' q]; [right; apply string_prefix_nil|].
    change (String c s = String c' (q +:+ r)) in E. injection E as -> E.
    destruct (IH q) as [-> | H]; [by exists r | by left |].
    destruct s as [|d s].
    + destruct q; [by left | discriminate].
    + right. change (string_prefix (String c' q) (String c' (drop_last_byte (String d s)))).
      by apply string_prefix_cons.
Qed.

Section CellFacts.

Variable PrintableRuneWidth : string -> Z.

Lemma truncate_loop_longest_fit (width : Z) (fuel : nat) :
  forall s truncated,
    (String.length s < fuel)%nat ->
    (exists p,
       truncate_loop PrintableRuneWidth fuel width s truncated
       = Returns (p, truncated || bool_decide (p ≠ s))
       /\ string_prefix p s
       /\ PrintableRuneWidth p <= width
       /\ forall q, string_prefix q s -> (String.length p < String.length q)%nat ->
                    width < PrintableRuneWidth q)
    \/ (truncate_loop PrintableRuneWidth fuel width s truncated
        = Panics "slice bounds out of range [:-1]"
        /\ forall q, string_prefix q s -> width < PrintableRuneWidth q).
Proof.
  induction fuel as [|fuel IH]; intros s truncated Hlen; [lia|].
  simpl. destruct (Z.ltb_spec width (PrintableRuneWidth s)) as [Hw | Hw].
  - destruct s as [|c s].
    + right. split; [done|]. intros q [r E]. destruct q; [done | discriminate].
    + set (s0 := String c s) in *.
      assert (Hlen' : (String.length (drop_last_byte s0) < fuel)%nat).
      { rewrite drop_last_byte_length. simpl in Hlen. simpl. lia. }
      destruct (IH (drop_last_byte s0) true Hlen') as [(p & E & Hp & Hfit & Hlong) | [E Hall]].
      * left. exists p. split; [|split; [|split]].
        -- rewrite E. f_equal. f_equal. simpl.
           rewrite bool_decide_true; [by rewrite orb_true_r|].
           intros ->. lia.
        -- eapply string_prefix_trans; [done | apply drop_last_byte_prefix].
        -- done.
        -- intros q Hq Hlq. destruct (string_prefix_drop_last _ _ Hq) as [-> | Hq']; [done|].
           by apply Hlong.
      * right. split; [done|]. intros q Hq.
        destruct (string_prefix_drop_last _ _ Hq) as [-> | Hq']; [done | by apply Hall].
  - left. exists s. split; [|split; [|split]].
    + rewrite bool_decide_false; [by rewrite orb_false_r | by intros []].
    + apply string_prefix_refl.
    + done.
    + intros q Hq Hlq. apply string_prefix_length in Hq. lia.
Qed.

Lemma truncate_cases (width : Z) (s : string) :
  (PrintableRuneWidth s <= width /\ truncate PrintableRuneWidth width s = Returns s)
  \/ (width < PrintableRuneWidth s
      /\ exists p,
           truncate PrintableRuneWidth width s = Returns (p +:+ ansi_reset)
           /\ string_prefix p s /\ p ≠ s
           /\ PrintableRuneWidth p <= width
           /\ forall q, string_prefix q s -> (String.length p < String.length q)%nat ->
                        width < PrintableRuneWidth q)
  \/ (width < PrintableRuneWidth s
      /\ truncate PrintableRuneWidth width s = Panics "slice bounds out of range [:-1]"
      /\ forall q, string_prefix q s -> width < PrintableRuneWidth q).
Proof.
  unfold truncate.
  destruct (truncate_loop_longest_fit width (S (String.length s)) s false)
    as [(p & E & Hp & Hfit & Hlong) | [E Hall]]; [lia | |].
  - destruct (decide (p = s)) as [-> | Hne].
    + left. split; [done|]. rewrite E. simpl.
      rewrite bool_decide_false; [done | by intros []].
    + right. left.
      assert (String.length p < String.length s)%nat.
      { destruct Hp as [r ->]. rewrite string_length_app.
        destruct r; [by rewrite string_app_nil_r in Hne | simpl; lia]. }
      split; [by apply Hlong; [apply string_prefix_refl|]|].
      exists p. rewrite E. simpl. by rewrite bool_decide_true.
  - right. right. split; [apply Hall, string_prefix_refl|]. by rewrite E.
Qed.

(** X14: [truncate] keeps the longest beginning of the text that fits.
    A text that fits the width comes back as it is.  Otherwise the result
    is the longest byte prefix of the text whose printable width is within
    the width, followed by the ANSI reset sequence; when no prefix fits,
    not even the empty one, the slice expression panics.  The loop ends in
    every case. *)
Theorem truncate_longest_fit (width : Z) (s : string) :
  (PrintableRuneWidth s <= width -> truncate PrintableRuneWidth width s = Returns s)
  /\ (width < PrintableRuneWidth s ->
      (exists p,
         truncate PrintableRuneWidth width s = Returns (p +:+ ansi_reset)
         /\ string_prefix p s /\ p ≠ s
         /\ PrintableRuneWidth p <= width
         /\ forall q, string_prefix q s -> (String.length p < String.length q)%nat ->
                      width < PrintableRuneWidth q)
      \/ (truncate PrintableRuneWidth width s = Panics "slice bounds out of range [:-1]"
          /\ forall q, string_prefix q s -> width < PrintableRuneWidth q)).
Proof.
  destruct (truncate_cases width s) as [[Hw E] | [[Hw H] | [Hw H]]].
  - split; [done | lia].
  - split; [lia | by left].
  - split; [lia | by right].
Qed.

Lemma cell_cases (width : Z) (s : string) :
  (forall x, 0 <= PrintableRuneWidth x) ->
  PrintableRuneWidth "" = 0 ->
  int_min + 3 <= width <= int_max ->
  let spaces := repeat_string (Z.to_nat (width - PrintableRuneWidth s)) " " in
  (PrintableRuneWidth s <= width
   /\ left PrintableRuneWidth width s = Returns (s +:+ spaces)
   /\ right PrintableRuneWidth width s = Returns (spaces +:+ s))
  \/ (width < PrintableRuneWidth s /\ 3 <= width
      /\ exists p,
           string_prefix p s /\ p ≠ s /\ PrintableRuneWidth p <= width - 3
           /\ left PrintableRuneWidth width s = Returns ((p +:+ ansi_reset) +:+ "...")
           /\ right PrintableRuneWidth width s = Returns ((p +:+ ansi_reset) +:+ "..."))
  \/ (width < PrintableRuneWidth s /\ width < 3
      /\ left PrintableRuneWidth width s = Panics "slice bounds out of range [:-1]"
      /\ right PrintableRuneWidth width s = Panics "slice bounds out of range [:-1]").
Proof.
  intros Hnonneg Hempty Hw spaces. unfold left, right.
  destruct (Z.ltb_spec width (PrintableRuneWidth s)) as [Hs | Hs].
  - assert (E3 : int_sub width 3 = width - 3).
    { apply wrap64_id. unfold int_min, int_max in *. lia. }
    rewrite E3.
    destruct (truncate_cases (width - 3) s) as [[Hfit E] | [[Hw' H] | [Hw' [E Hall]]]].
    + lia.
    + destruct H as (p & E & Hp & Hne & Hfit & _).
      right. left. split; [done|]. split.
      * specialize (Hnonneg p). lia.
      * exists p. rewrite E. done.
    + right. right. split; [done|]. split.
      * specialize (Hall "" (string_prefix_nil s)). lia.
      * rewrite E. done.
  - left. split; [done|].
    assert (Ep : padding PrintableRuneWidth width s = width - PrintableRuneWidth s).
    { apply wrap64_id. specialize (Hnonneg s). unfold int_min, int_max in *. lia. }
    rewrite Ep. unfold whitespace.
    destruct (Z.ltb_spec (width - PrintableRuneWidth s) 0); [lia|]. done.
Qed.

(** X15: the cells [left] and [right] make, for a width function that is
    never negative and gives the empty text width zero.  A text that fits
    is padded with spaces to the width, after the text ([left]) or before
    it ([right]).  A text that does not fit is cut to a shorter prefix of
    width at most [width - 3], followed by the reset sequence and three
    dots, when the column is at least three wide; in a column narrower
    than three both panics on the slice of the empty text. *)
Theorem left_right_cells (width : Z) (s : string) :
  (forall x, 0 <= PrintableRuneWidth x) ->
  PrintableRuneWidth "" = 0 ->
  int_min + 3 <= width <= int_max ->
  let spaces := repeat_string (Z.to_nat (width - PrintableRuneWidth s)) " " in
  (PrintableRuneWidth s <= width ->
   left PrintableRuneWidth width s = Returns (s +:+ spaces)
   /\ right PrintableRuneWidth width s = Returns (spaces +:+ s))
  /\ (width < PrintableRuneWidth s -> 3 <= width ->
      exists p,
        string_prefix p s /\ p ≠ s /\ PrintableRuneWidth p <= width - 3
        /\ left PrintableRuneWidth width s = Returns ((p +:+ ansi_reset) +:+ "...")
        /\ right PrintableRuneWidth width s = Returns ((p +:+ ansi_reset) +:+ "..."))
  /\ (width < PrintableRuneWidth s -> width < 3 ->
      left PrintableRuneWidth width s = Panics "slice bounds out of range [:-1]"
      /\ right PrintableRuneWidth width s = Panics "slice bounds out of range [:-1]").
Proof.
  intros Hnonneg Hempty Hw spaces.
  destruct (cell_cases width s Hnonneg Hempty Hw) as [(H1 & H2) | [(H1 & H2 & H3) | (H1 & H2 & H3)]].
  - split; [done|]. split; intros; lia.
  - split; [intros; lia|]. split; [done | intros; lia].
  - split; [intros; lia|]. split; [intros; lia | done].
Qed.

End CellFacts.

(** ** The functions tab *)

Section ViewFacts.

Variable Render : Style -> string -> string.
Variable PrintableRuneWidth : string -> Z.
Variable DurationString : Duration -> string.
Variable StatusName : Status -> string.

Lemma build_row_spinner_cell (now : Time) (sp : string) (isLast : list bool) (n : node) :
  spinner_cell Render sp (build_row Render StatusName now sp isLast n).
Proof.
  unfold spinner_cell, build_row. destruct (judge now n) as [[n' st] p].
  destruct (running n'); [destruct p; simpl; auto|].
  destruct (error n'); [destruct p; simpl; auto|].
  destruct (negb (status n' =? Status_STATUS_UNSPECIFIED)); [destruct p; simpl; auto|].
  destruct (p && (0 <? responses n')); destruct p; simpl; auto.
Qed.

Lemma range_children_cells
    (rec : DispatchID -> list bool -> rowBuffer -> TUI -> outcome (rowBuffer * TUI))
    (Q : row.t -> Prop) (t : TUI) (isLast : list bool) (len : nat) :
  (forall id il rows0 rows' t',
     Forall Q (rows rows0) -> rec id il rows0 t = Returns (rows', t') ->
     t' = t /\ Forall Q (rows rows')) ->
  forall ids i rows0 rows' t',
    Forall Q (rows rows0) ->
    range_children rec isLast len i ids rows0 t = Returns (rows', t') ->
    Forall Q (rows rows').
Proof.
  intros Hrec. induction ids as [|id ids IH]; intros i rows0 rows' t' H0 E; simpl in E.
  - by injection E as <- <-.
  - destruct (rec id _ rows0 t) as [[rows1 t1]| |] eqn:E1; simpl in E; try discriminate.
    destruct (Hrec _ _ _ _ _ H0 E1) as [-> H1]. by eapply IH.
Qed.

Lemma buildRows_cells (fuel : nat) (now : Time) (t : TUI) :
  forall id isLast rows0 rows' t',
    Forall (spinner_cell Render (spinner t)) (rows rows0) ->
    buildRows Render StatusName fuel now id isLast rows0 t = Returns (rows', t') ->
    Forall (spinner_cell Render (spinner t)) (rows rows').
Proof.
  induction fuel as [|fuel IH]; intros id isLast rows0 rows' t' H0 E; simpl in E;
    [discriminate|].
  eapply (range_children_cells (buildRows Render StatusName fuel now)); [| |exact E].
  - intros id' il r0 r1 t1 Hr0 E1. split; [|by eapply IH].
    by destruct (buildRows_store Render StatusName _ _ _ _ _ _ _ _ E1) as [-> _].
  - simpl. apply Forall_app. split; [done|]. constructor; [|constructor].
    apply build_row_spinner_cell.
Qed.

Section Widths.

Hypothesis width_nonneg : forall x, 0 <= PrintableRuneWidth x.
Hypothesis width_empty : PrintableRuneWidth "" = 0.

Lemma wide_cell_returns (width : Z) (s : string) :
  3 <= width <= int_max ->
  (exists out, left PrintableRuneWidth width s = Returns out)
  /\ (exists out, right PrintableRuneWidth width s = Returns out).
Proof.
  intros Hw.
  destruct (cell_cases PrintableRuneWidth width s width_nonneg width_empty)
    as [(_ & -> & ->) | [(_ & _ & p & _ & _ & _ & -> & ->) | (_ & H & _)]];
    [unfold int_min; lia | eauto | eauto | lia].
Qed.

Lemma tableHeaderView_returns (functionColumnWidth : Z) :
  3 <= functionColumnWidth <= int_max ->
  exists out, tableHeaderView Render PrintableRuneWidth functionColumnWidth = Returns out.
Proof.
  intros Hw. unfold tableHeaderView. simpl.
  destruct (wide_cell_returns functionColumnWidth (Render tableHeaderStyle "Function") Hw)
    as [[c1 ->] _]. simpl.
  destruct (wide_cell_returns 8 (Render tableHeaderStyle "Attempts")) as [_ [c2 ->]];
    [unfold int_max; lia|]. simpl.
  destruct (wide_cell_returns 10 (Render tableHeaderStyle "Duration")) as [_ [c3 ->]];
    [unfold int_max; lia|]. simpl.
  destruct (wide_cell_returns 40 (Render tableHeaderStyle "Status")) as [[c4 ->] _];
    [unfold int_max; lia|]. simpl.
  eauto.
Qed.

Lemma tableRowView_cases (frame : string) (r : row.t) (functionColumnWidth : Z) :
  spinner_cell Render frame r ->
  3 <= functionColumnWidth <= int_max ->
  (PrintableRuneWidth (Render spinnerStyle frame) <= 2 \/ row.spinner r = "" ->
   exists out,
     tableRowView PrintableRuneWidth DurationString r functionColumnWidth = Returns out)
  /\ (2 < PrintableRuneWidth (Render spinnerStyle frame) -> row.spinner r ≠ "" ->
      tableRowView PrintableRuneWidth DurationString r functionColumnWidth
      = Panics "slice bounds out of range [:-1]").
Proof.
  intros Hcell Hw. unfold tableRowView.
  destruct (cell_cases PrintableRuneWidth 2 (row.spinner r) width_nonneg width_empty)
    as [(H0 & E0 & _) | [(_ & H & _) | (H0 & _ & E0 & _)]];
    [unfold int_min, int_max; lia | | lia |].
  - split; [|intros Hwide Hne; destruct Hcell as [H | H]; [done | rewrite H in H0; lia]].
    intros _. rewrite E0. simpl.
    destruct (wide_cell_returns functionColumnWidth (row.function r) Hw) as [[c1 ->] _].
    simpl.
    destruct (wide_cell_returns 8 (pretty (row.attempts r))) as [_ [c2 ->]];
      [unfold int_max; lia|]. simpl.
    destruct (wide_cell_returns 10
                (if 0 <? row.elapsed r then DurationString (row.elapsed r) else "?"))
      as [_ [c3 ->]]; [unfold int_max; lia|]. simpl.
    destruct (wide_cell_returns 40 (row.status r)) as [[c4 ->] _];
      [unfold int_max; lia|]. simpl.
    eauto.
  - split; [|by intros; rewrite E0].
    intros [H | H]; exfalso.
    + destruct Hcell as [H' | H']; rewrite H' in H0; lia.
    + rewrite H in H0. lia.
Qed.

Lemma table_rows_return (frame : string) (functionColumnWidth : Z) (rs : list row.t) :
  PrintableRuneWidth (Render spinnerStyle frame) <= 2 ->
  3 <= functionColumnWidth <= int_max ->
  Forall (spinner_cell Render frame) rs ->
  forall b0, exists out,
    foldl (fun acc r =>
             b ← acc;
             v ← tableRowView PrintableRuneWidth DurationString r functionColumnWidth;
             Returns (b +:+ v))
      (Returns b0) rs = Returns out.
Proof.
  intros Hsp Hw. induction 1 as [|r rs Hr _ IH]; intros b0; simpl; [eauto|].
  destruct (tableRowView_cases frame r functionColumnWidth Hr Hw) as [[v ->] _]; [auto|].
  simpl. apply IH.
Qed.

Lemma root_view_cases (fuel : nat) (now : Time) (i : nat) (rootID : DispatchID)
    (b : string) (buf : rowBuffer) (t : TUI) :
  PrintableRuneWidth (Render spinnerStyle (spinner t)) <= 2 ->
  Forall (spinner_cell Render (spinner t)) (rows buf) ->
  (depth_within t fuel rootID
   /\ exists b',
        root_view Render PrintableRuneWidth DurationString StatusName fuel now i rootID b buf t
        = Returns (b', {| rows := [] |}, t))
  \/ (¬ depth_within t fuel rootID
      /\ root_view Render PrintableRuneWidth DurationString StatusName fuel now i rootID b buf t
         = OutOfFuel).
Proof.
  intros Hsp Hbuf. unfold root_view.
  destruct (buildRows_depth_cases Render StatusName fuel now t rootID [] buf)
    as [[Hd [buf' E]] | [Hd E]]; rewrite E; simpl; [|by right].
  left. split; [done|].
  apply buildRows_cells in E; [|done].
  set (fw := Z.max 20 (Z.min 50 _)).
  assert (Hfw : 3 <= fw <= int_max) by (unfold fw, int_max; lia).
  destruct (tableHeaderView_returns fw Hfw) as [h ->]. simpl.
  destruct (table_rows_return (spinner t) fw (rows buf') Hsp Hfw E
              ((if bool_decide (0 < i)%nat then b +:+ newline else b) +:+ h)) as [out ->].
  simpl. eauto.
Qed.

Lemma roots_view_cases (fuel : nat) (now : Time) (t : TUI) :
  PrintableRuneWidth (Render spinnerStyle (spinner t)) <= 2 ->
  forall rootIDs i b buf,
    Forall (spinner_cell Render (spinner t)) (rows buf) ->
    (Forall (depth_within t fuel) rootIDs
     /\ exists out,
          roots_view Render PrintableRuneWidth DurationString StatusName fuel now i rootIDs
            b buf t = Returns (out, t))
    \/ (¬ Forall (depth_within t fuel) rootIDs
        /\ roots_view Render PrintableRuneWidth DurationString StatusName fuel now i rootIDs
             b buf t = OutOfFuel).
Proof.
  intros Hsp. induction rootIDs as [|id ids IH]; intros i b buf Hbuf; simpl.
  - left. split; [constructor | eauto].
  - destruct (root_view_cases fuel now i id b buf t Hsp Hbuf) as [[Hd [b' ->]] | [Hd ->]];
      simpl.
    + destruct (IH (S i) b' {| rows := [] |}) as [[Hall [out ->]] | [Hall ->]];
        [constructor | |].
      * left. split; [by constructor | eauto].
      * right. split; [|done]. intros H. apply Hall. by apply Forall_cons in H as [_ H].
    + right. split; [|done]. intros H. apply Hd. by apply Forall_cons in H as [H _].
Qed.

End Widths.

(** X16: the functions tab never panics when the spinner frame fits its
    column.  For a width function that is never negative and gives the
    empty text width zero, and a styled spinner frame at most two cells
    wide, [functionCallsView] returns, with the store as it was, when
    there is no root or every root's tree is within the depth bound; it
    runs out of fuel otherwise, and it panics for no store. *)
Theorem functionCallsView_never_panics (fuel : nat) (now : Time) (t : TUI) :
  (forall x, 0 <= PrintableRuneWidth x) ->
  PrintableRuneWidth "" = 0 ->
  PrintableRuneWidth (Render spinnerStyle (spinner t)) <= 2 ->
  (size (default ∅ (roots t)) = 0%nat \/ Forall (depth_within t fuel) (orderedRoots t) ->
   exists out,
     functionCallsView Render PrintableRuneWidth DurationString StatusName fuel now t
     = Returns (out, t))
  /\ (size (default ∅ (roots t)) ≠ 0%nat -> ¬ Forall (depth_within t fuel) (orderedRoots t) ->
      functionCallsView Render PrintableRuneWidth DurationString StatusName fuel now t
      = OutOfFuel)
  /\ forall msg,
       functionCallsView Render PrintableRuneWidth DurationString StatusName fuel now t
       ≠ Panics msg.
Proof.
  intros Hnonneg Hempty Hsp. unfold functionCallsView.
  destruct (decide (size (default ∅ (roots t)) = 0%nat)) as [Hz | Hz].
  - rewrite bool_decide_true by done. split; [eauto|]. split; [done | discriminate].
  - rewrite bool_decide_false by done.
    destruct (roots_view_cases Hnonneg Hempty fuel now t Hsp (orderedRoots t) O ""
                {| rows := [] |}) as [[Hall [out E]] | [Hall E]]; [constructor | |];
      rewrite E.
    + split; [eauto|]. split; [done | discriminate].
    + split; [by intros [H | H]|]. split; [done | discriminate].
Qed.

Lemma table_rows_panic (functionColumnWidth : Z) (msg : string) (rs : list row.t) :
  foldl (fun acc r =>
           b ← acc;
           v ← tableRowView PrintableRuneWidth DurationString r functionColumnWidth;
           Returns (b +:+ v))
    (Panics msg) rs = Panics msg.
Proof. induction rs as [|r rs IH]; [done | apply IH]. Qed.

Lemma pending_row_spinner (now : Time) (sp : string) (isLast : list bool) (n : node) :
  done n = false -> expired now n = false ->
  row.spinner (build_row Render StatusName now sp isLast n) = Render spinnerStyle sp.
Proof.
  intros Hd He. unfold build_row. rewrite judge_cases, Hd, He.
  destruct (running n); [done|]. destruct (error n); [done|].
  destruct (negb (status n =? Status_STATUS_UNSPECIFIED)); [done|].
  by destruct (true && (0 <? responses n)).
Qed.

(** X17: the bound on the spinner frame is needed.  When the styled
    spinner frame is wider than two cells and the first root is neither
    done nor judged expired (so its row carries the spinner),
    [functionCallsView] panics on the slice of the empty text: the spinner
    column is two cells wide, and [left] cuts to [width - 3]. *)
Theorem wide_spinner_panics (fuel : nat) (now : Time) (t : TUI) (id : DispatchID)
    (others : list string) :
  (forall x, 0 <= PrintableRuneWidth x) ->
  PrintableRuneWidth "" = 0 ->
  2 < PrintableRuneWidth (Render spinnerStyle (spinner t)) ->
  size (default ∅ (roots t)) ≠ 0%nat ->
  orderedRoots t = id :: others ->
  depth_within t fuel id ->
  done (node_at t id) = false ->
  expired now (node_at t id) = false ->
  functionCallsView Render PrintableRuneWidth DurationString StatusName fuel now t
  = Panics "slice bounds out of range [:-1]".
Proof.
  intros Hnonneg Hempty Hsp Hz Hroots Hdepth Hd He. unfold functionCallsView.
  rewrite bool_decide_false by done. rewrite Hroots. simpl. unfold root_view.
  destruct (buildRows_depth_cases Render StatusName fuel now t id [] {| rows := [] |})
    as [[_ [buf' E]] | [Hn _]]; [|done].
  rewrite E. simpl.
  destruct (buildRows_store Render StatusName _ _ _ _ _ _ _ _ E) as [_ [more Hrows]].
  simpl in Hrows. rewrite Hrows.
  set (fw := Z.max 20 (Z.min 50 _)).
  assert (Hfw : 3 <= fw <= int_max) by (unfold fw, int_max; lia).
  destruct (tableHeaderView_returns Hnonneg Hempty fw Hfw) as [h ->]. simpl.
  set (r0 := build_row Render StatusName now (spinner t) [] (node_at t id)).
  assert (Hr0 : row.spinner r0 = Render spinnerStyle (spinner t))
    by (by apply pending_row_spinner).
  destruct (tableRowView_cases Hnonneg Hempty (spinner t) r0 fw) as [_ Hp];
    [by right | done |].
  rewrite Hp; [| done | rewrite Hr0; intros Hnil; rewrite Hnil in Hsp; lia].
  simpl. by rewrite table_rows_panic.
Qed.

End ViewFacts.

(** * Properties of the event loop *)

Lemma count_msgs_snoc {P : Type} (f : Msg P -> bool) (msgs : list (Msg P)) (msg : Msg P) :
  count_msgs f (msgs ++ [msg]) = (count_msgs f msgs + (if f msg then 1 else 0))%nat.
Proof. induction msgs as [|x msgs IH]; simpl; [lia | rewrite IH; lia]. Qed.

Lemma uint64_incr_parity (x : Z) : uint64_incr x mod 2 = (x + 1) mod 2.
Proof.
  unfold uint64_incr.
  rewrite (Z.mod_eq (x + 1) (2 ^ 64)) by lia.
  replace (x + 1 - 2 ^ 64 * ((x + 1) / 2 ^ 64))
    with (x + 1 + (- (2 ^ 63 * ((x + 1) / 2 ^ 64))) * 2) by lia.
  apply Z.mod_add. lia.
Qed.

Section LoopFacts.

Variable V : Type.
Variable P : Type.
Variable viewport_New : Z -> Z -> V.
Variable viewport_set_Style : Style -> V -> V.
Variable viewport_set_Width : Z -> V -> V.
Variable viewport_set_Height : Z -> V -> V.
Variable viewport_Update : Msg P -> V -> V.
Variable spinner_Update : P -> string -> string.
Variable spinner_New : string.

#[local] Abbreviation update :=
  (Update V P viewport_New viewport_set_Style viewport_set_Width viewport_set_Height
     viewport_Update spinner_Update).
#[local] Abbreviation run :=
  (Update_all V P viewport_New viewport_set_Style viewport_set_Width viewport_set_Height
     viewport_Update spinner_Update).

Lemma Update_quit (msg : Msg P) (m : Model V) :
  is_quit msg = true -> update msg m = (m, Quit).
Proof.
  destruct msg; try discriminate. simpl. intros H. unfold Update, handle. by rewrite H.
Qed.

Lemma Update_batch (msg : Msg P) (m : Model V) :
  is_quit msg = false -> exists cmds, (update msg m).2 = Batch cmds.
Proof.
  intros H. unfold Update, handle.
  destruct msg; simpl in *; try (eexists; reflexivity).
  rewrite H. repeat case_bool_decide; eexists; reflexivity.
Qed.

(** The state of a run, by induction on the messages handled so far. *)
Lemma run_ind (R : list (Msg P) -> Model V -> Prop) (msgs : list (Msg P)) (m : Model V) :
  R [] m ->
  (forall pre msg m', is_quit msg = false -> R pre m' -> R (pre ++ [msg]) (update msg m').1) ->
  R (processed msgs) (run msgs m).1.
Proof.
  revert R m. induction msgs as [|msg msgs IH]; intros R m H0 Hstep; [done|].
  simpl. destruct (is_quit msg) eqn:Hq.
  - by rewrite (Update_quit _ _ Hq).
  - destruct (Update_batch msg m Hq) as [cmds Hc].
    destruct (update msg m) as [m1 c] eqn:E. simpl in Hc. subst c.
    apply (IH (fun l m'' => R (msg :: l) m'')).
    + replace m1 with (update msg m).1 by (by rewrite E). by apply (Hstep []).
    + intros pre x m' Hx Hr. by apply (Hstep (msg :: pre)).
Qed.

Lemma step_store (msg : Msg P) (m : Model V) :
  let m' := (update msg m).1 in
  roots (tui m') = roots (tui m)
  /\ orderedRoots (tui m') = orderedRoots (tui m)
  /\ nodes (tui m') = nodes (tui m).
Proof.
  unfold Update, handle. destruct msg; simpl; try done.
  repeat case_bool_decide; done.
Qed.

Lemma step_fields (msg : Msg P) (m : Model V) :
  is_quit msg = false ->
  let m' := (update msg m).1 in
  activeTab m'
  = (if is_key "tab" msg then Z.rem (int_add (activeTab m) 1) tabCount else activeTab m)
  /\ tail m' = default (tail m) (tail_key msg)
  /\ windowHeight m' = default (windowHeight m) (resize_height msg)
  /\ ready m' = ready m || bool_decide (is_Some (resize_height msg))
  /\ ticks (tui m')
     = (if is_tick msg then uint64_incr (ticks (tui m)) else ticks (tui m)).
Proof.
  intros Hq. unfold Update, handle.
  destruct msg as [| p | w h | key |]; simpl in *;
    rewrite ?orb_false_r, ?orb_true_r; try done.
  rewrite Hq.
  destruct (decide (key = "t")) as [-> | Ht]; [done|].
  rewrite (bool_decide_false (key = "t")) by done.
  destruct (decide (key = "tab")) as [-> | Htab]; [done|].
  rewrite (bool_decide_false (key = "tab")) by done.
  destruct (bool_decide (key ∈ scroll_keys)); simpl; by rewrite ?orb_false_r.
Qed.

(** X18: the event loop never touches the call tree.  Whatever messages
    [Update] receives, and also through [Init], the roots, their order and
    the nodes of the store are the ones the observer left. *)
Theorem ui_events_keep_store (msgs : list (Msg P)) (m : Model V) :
  let m0 := (Init V spinner_New m).1 in
  let m' := (run msgs m0).1 in
  (roots (tui m0) = roots (tui m)
   /\ orderedRoots (tui m0) = orderedRoots (tui m)
   /\ nodes (tui m0) = nodes (tui m))
  /\ roots (tui m') = roots (tui m)
  /\ orderedRoots (tui m') = orderedRoots (tui m)
  /\ nodes (tui m') = nodes (tui m).
Proof.
  simpl. split; [done|].
  apply (run_ind (fun _ m' =>
           roots (tui m') = roots (tui m)
           /\ orderedRoots (tui m') = orderedRoots (tui m)
           /\ nodes (tui m') = nodes (tui m))); [done|].
  intros pre msg m' _ (H1 & H2 & H3).
  destruct (step_store msg m') as (E1 & E2 & E3). by rewrite E1, E2, E3.
Qed.

(** X19: the active tab after [Init] and a run of messages is a valid tab,
    and it is the functions tab exactly when the [tab] key was pressed an
    even number of times before the run quit. *)
Theorem tab_parity (msgs : list (Msg P)) (m : Model V) :
  let m' := (run msgs (Init V spinner_New m).1).1 in
  activeTab m' = Z.of_nat (count_msgs (is_key "tab") (processed msgs)) mod 2
  /\ (activeTab m' = functionsTab \/ activeTab m' = logsTab)
  /\ (activeTab m' = functionsTab
      <-> Nat.Even (count_msgs (is_key "tab") (processed msgs))).
Proof.
  cbv zeta.
  assert (H : activeTab (run msgs (Init V spinner_New m).1).1
              = Z.of_nat (count_msgs (is_key "tab") (processed msgs)) mod 2).
  { apply (run_ind (fun l m' => activeTab m' = Z.of_nat (count_msgs (is_key "tab") l) mod 2));
      [done|].
    intros pre msg m' Hq IH.
    destruct (step_fields msg m' Hq) as (E & _). rewrite E, count_msgs_snoc.
    destruct (is_key "tab" msg).
    - rewrite IH. unfold tabCount, int_add.
      set (c := Z.of_nat (count_msgs (is_key "tab") pre)).
      assert (0 <= c mod 2 < 2) by (apply Z.mod_pos_bound; lia).
      rewrite wrap64_id by (unfold int_min, int_max; lia).
      rewrite Z.rem_mod_nonneg by lia.
      rewrite Nat2Z.inj_add. fold c. change (Z.of_nat 1) with 1.
      by rewrite Zplus_mod_idemp_l.
    - by rewrite Nat.add_0_r. }
  split; [done|].
  set (n := count_msgs (is_key "tab") (processed msgs)) in *.
  assert (Hm : 0 <= Z.of_nat n mod 2 < 2) by (apply Z.mod_pos_bound; lia).
  unfold functionsTab, logsTab. rewrite H. split; [lia|]. split.
  - intros Hz. apply Z.mod_divide in Hz; [|lia]. destruct Hz as [k Hk].
    exists (Z.to_nat k). lia.
  - intros [k Hk]. rewrite Hk, Nat2Z.inj_mul. change (Z.of_nat 2) with 2.
    rewrite Z.mul_comm. apply Z.mod_mul. lia.
Qed.

(** X20: whether the view tails the output after a run is decided by the
    last of the keys that say so: [t] turns tailing on, a scroll key turns
    it off, and without such a key the flag is as it was ([Init] sets it). *)
Theorem tail_follows_last_key (msgs : list (Msg P)) (m : Model V) :
  tail (run msgs m).1 = default (tail m) (last (omap tail_key (processed msgs)))
  /\ tail (Init V spinner_New m).1 = true.
Proof.
  split; [|done].
  apply (run_ind (fun l m' => tail m' = default (tail m) (last (omap tail_key l)))); [done|].
  intros pre msg m' Hq IH.
  destruct (step_fields msg m' Hq) as (_ & E & _). rewrite E, omap_app. simpl.
  destruct (tail_key msg) as [b|]; simpl.
  - by rewrite last_snoc.
  - by rewrite app_nil_r.
Qed.

(** X21: the model is ready once a window size message was handled, and
    stays so; the window height is the height of the last such message. *)
Theorem ready_after_resize (msgs : list (Msg P)) (m : Model V) :
  let sizes := omap resize_height (processed msgs) in
  (ready (run msgs m).1 = true <-> ready m = true \/ sizes ≠ [])
  /\ windowHeight (run msgs m).1 = default (windowHeight m) (last sizes).
Proof.
  cbv zeta.
  apply (run_ind (fun l m' =>
           (ready m' = true <-> ready m = true \/ omap resize_height l ≠ [])
           /\ windowHeight m' = default (windowHeight m) (last (omap resize_height l)))).
  { split; [|done]. simpl. split; [by left | by intros [? | ?]]. }
  intros pre msg m' Hq [IH1 IH2].
  destruct (step_fields msg m' Hq) as (_ & _ & E1 & E2 & _).
  rewrite E1, E2, IH2, omap_app. simpl.
  destruct (resize_height msg) as [h|]; simpl.
  - rewrite last_snoc. split; [|done].
    rewrite ?orb_true_r. split; [|done]. intros _. right.
    by destruct (omap resize_height pre).
  - rewrite app_nil_r. split; [|done].
    by rewrite ?orb_false_r.
Qed.

(** X22: the tick counter counts the ticker messages handled, modulo
    [2^64], and the logo depends on the parity of that count only: after
    an even number of ticks the logo is drawn as before, also across the
    wrap-around of the counter. *)
Theorem ticks_count (Render : Style -> string -> string) (msgs : list (Msg P))
    (m : Model V) :
  0 <= ticks (tui m) < 2 ^ 64 ->
  let n := count_msgs is_tick (processed msgs) in
  let m' := (run msgs m).1 in
  ticks (tui m') = (ticks (tui m) + Z.of_nat n) mod 2 ^ 64
  /\ (Nat.Even n -> logoView Render (tui m') = logoView Render (tui m)).
Proof.
  intros Hr. cbv zeta.
  assert (H : ticks (tui (run msgs m).1)
              = (ticks (tui m) + Z.of_nat (count_msgs is_tick (processed msgs))) mod 2 ^ 64).
  { apply (run_ind (fun l m' =>
             ticks (tui m') = (ticks (tui m) + Z.of_nat (count_msgs is_tick l)) mod 2 ^ 64)).
    { rewrite Z.add_0_r. by rewrite Z.mod_small. }
    intros pre msg m' Hq IH.
    destruct (step_fields msg m' Hq) as (_ & _ & _ & _ & E). rewrite E, count_msgs_snoc.
    destruct (is_tick msg).
    - rewrite IH. unfold uint64_incr. rewrite Zplus_mod_idemp_l. f_equal. lia.
    - rewrite IH. f_equal. lia. }
  split; [done|]. intros [k Hk].
  assert (Hp : ticks (tui (run msgs m).1) mod 2 = ticks (tui m) mod 2).
  { rewrite H, Hk.
    rewrite (Z.mod_eq (ticks (tui m) + Z.of_nat (2 * k)) (2 ^ 64)) by lia.
    set (q := (ticks (tui m) + Z.of_nat (2 * k)) / 2 ^ 64).
    replace (ticks (tui m) + Z.of_nat (2 * k) - 2 ^ 64 * q)
      with (ticks (tui m) + (Z.of_nat k - 2 ^ 63 * q) * 2) by lia.
    apply Z.mod_add. lia. }
  unfold logoView. by rewrite Hp.
Qed.


End LoopFacts.

(** * Further runs on concrete stores *)

(** X1 at the chain A -> a -> b -> c followed by a response for [b]. *)
Lemma reachable_store_wf_witness :
  let evs := requests chain
             ++ [Response 5 (child_of "A" "a" "b" "fb") None None
                   (Some (exit_with Status_STATUS_OK))] in
  let t := run_from_empty evs in
  observe_all evs TUI_zero = Returns t
  /\ orderedRoots t = ["A"]
  /\ NoDup (orderedRoots t)
  /\ (forall x, x ∈ orderedRoots t <-> x ∈ default ∅ (roots t))
  /\ forall k,
       NoDup (orderedChildren (node_at t k))
       /\ forall x, x ∈ orderedChildren (node_at t k) <-> x ∈ default ∅ (children (node_at t k)).
Proof.
  intros evs t.
  assert (H : observe_all evs TUI_zero = Returns t) by (vm_compute; reflexivity).
  split; [exact H|]. split; [vm_compute; reflexivity|].
  exact (reachable_store_wf evs t H).
Defined.

(** X2 at the store of the done [A], a request of a second root [B] and a
    tail call that resets [A]. *)
Lemma never_evicts_witness :
  let evs := [Request 300 (child_of "B" "" "B" "g");
              Response 400 req_A None None (Some (tail_call_with Status_STATUS_OK "h"))] in
  let t' := match observe_all evs store_A_done with Returns t' => t' | _ => TUI_zero end in
  observe_all evs store_A_done = Returns t'
  /\ orderedRoots t' = ["A"; "B"]
  /\ orderedRoots store_A_done `prefix_of` orderedRoots t'
  /\ forall k, is_Some (lookup_node store_A_done k) -> is_Some (lookup_node t' k).
Proof.
  intros evs t'.
  assert (H : observe_all evs store_A_done = Returns t') by (vm_compute; reflexivity).
  split; [exact H|]. split; [vm_compute; reflexivity|].
  exact (never_evicts evs store_A_done t' H).
Defined.

(** X3 at the store one request of [A] makes. *)
Lemma responses_return_after_first_event_witness :
  let evs := [Request 100 req_A] in
  let t := run_from_empty evs in
  observe_all evs TUI_zero = Returns t
  /\ forall now req err httpRes res,
       exists t', ObserveResponse now req err httpRes res t = Returns t'.
Proof.
  intros evs t.
  assert (H : observe_all evs TUI_zero = Returns t) by (vm_compute; reflexivity).
  assert (Hne : evs ≠ []) by discriminate.
  split; [exact H|].
  exact (responses_return_after_first_event evs TUI_zero t Hne H).
Defined.

(** X5 at the chain A -> a -> b -> c. *)
Lemma reachable_store_closed_witness :
  let evs := requests chain in
  let t := run_from_empty evs in
  observe_all evs TUI_zero = Returns t
  /\ orderedChildren (node_at t "b") = ["c"]
  /\ (forall r, r ∈ orderedRoots t -> is_Some (lookup_node t r))
  /\ forall k c, c ∈ orderedChildren (node_at t k) -> is_Some (lookup_node t c).
Proof.
  intros evs t.
  assert (H : observe_all evs TUI_zero = Returns t) by (vm_compute; reflexivity).
  split; [exact H|]. split; [vm_compute; reflexivity|].
  exact (reachable_store_closed evs t H).
Defined.

(** X6 at a run in which [A] fails with a timeout, is requested again and
    succeeds. *)
Lemma failures_le_responses_witness :
  let evs := [Request 100 req_A;
              Response 200 req_A None None (Some (exit_with Status_STATUS_TIMEOUT));
              Request 300 req_A;
              Response 400 req_A None None (Some (exit_with Status_STATUS_OK))] in
  let t := run_from_empty evs in
  observe_all evs TUI_zero = Returns t
  /\ failures (node_at t "A") = 1
  /\ responses (node_at t "A") = 2
  /\ forall k,
       0 <= failures (node_at t k) <= responses (node_at t k)
       /\ responses (node_at t k) <= Z.of_nat (length evs).
Proof.
  intros evs t.
  assert (H : observe_all evs TUI_zero = Returns t) by (vm_compute; reflexivity).
  assert (Hlen : Z.of_nat (length evs) <= int_max) by (unfold int_max; simpl; lia).
  split; [exact H|]. do 2 (split; [vm_compute; reflexivity|]).
  exact (failures_le_responses evs t Hlen H).
Defined.

(** X7 at the run that makes the store of the done [A]. *)
Lemma doneTime_discipline_witness :
  let evs := [Request 100 req_A;
              Response 200 req_A None None (Some (exit_with Status_STATUS_OK))] in
  Forall (λ ev, event_time ev ≠ 0) evs
  /\ observe_all evs TUI_zero = Returns store_A_done
  /\ doneTime (node_at store_A_done "A") = 200
  /\ (forall k, done (node_at store_A_done k) = true -> doneTime (node_at store_A_done k) ≠ 0)
  /\ forall now err httpRes res k,
       doneTime (node_at store_A_done k) ≠ 0 ->
       let n' := observe_response now err httpRes res (node_at store_A_done k) in
       doneTime n' = doneTime (node_at store_A_done k) \/ (doneTime n' = 0 /\ done n' = false).
Proof.
  intros evs.
  assert (Hc : Forall (λ ev, event_time ev ≠ 0) evs)
    by (repeat (constructor; [simpl; lia|]); constructor).
  assert (H : observe_all evs TUI_zero = Returns store_A_done) by (vm_compute; reflexivity).
  split; [exact Hc|]. split; [exact H|]. split; [vm_compute; reflexivity|].
  exact (doneTime_discipline evs store_A_done Hc H).
Defined.

(** X13 at the request of [A] that names [A] as its parent, on the empty
    store. *)
Lemma self_parent_never_renders_witness :
  let t' := run_from_empty [Request 100 req_A_self] in
  ObserveRequest 100 req_A_self TUI_zero = Returns t'
  /\ "A" ∈ orderedChildren (node_at t' "A")
  /\ forall fuel now' isLast rows0,
       buildRows sample_Render sample_StatusName fuel now' "A" isLast rows0 t' = OutOfFuel.
Proof.
  intros t'.
  assert (H : ObserveRequest 100 req_A_self TUI_zero = Returns t') by (vm_compute; reflexivity).
  assert (Hp : ParentDispatchId req_A_self = DispatchId req_A_self) by reflexivity.
  assert (Hid : DispatchId req_A_self ≠ "") by discriminate.
  split; [exact H|].
  exact (self_parent_never_renders sample_Render sample_StatusName 100 req_A_self
           TUI_zero t' wf_TUI_zero Hp Hid H).
Defined.

(** X15 with the byte length as width: a text that fits a column of ten,
    one that is cut, and a column of two that panics. *)
Lemma left_right_cells_witness :
  (left sample_width 10 "Status" = Returns "Status    "
   /\ right sample_width 10 "Status" = Returns "    Status")
  /\ (exists p,
        string_prefix p "Incompatible state" /\ p ≠ "Incompatible state"
        /\ sample_width p <= 10 - 3
        /\ left sample_width 10 "Incompatible state" = Returns ((p +:+ ansi_reset) +:+ "...")
        /\ right sample_width 10 "Incompatible state" = Returns ((p +:+ ansi_reset) +:+ "..."))
  /\ left sample_width 2 "Status" = Panics "slice bounds out of range [:-1]"
  /\ right sample_width 2 "Status" = Panics "slice bounds out of range [:-1]".
Proof.
  assert (Hn : forall x, 0 <= sample_width x) by (intros x; unfold sample_width; lia).
  assert (He : sample_width "" = 0) by reflexivity.
  assert (H10 : int_min + 3 <= 10 <= int_max) by (unfold int_min, int_max; simpl; lia).
  assert (H2 : int_min + 3 <= 2 <= int_max) by (unfold int_min, int_max; simpl; lia).
  split; [|split].
  - apply (left_right_cells sample_width 10 "Status" Hn He H10). vm_compute. discriminate.
  - apply (left_right_cells sample_width 10 "Incompatible state" Hn He H10).
    + reflexivity.
    + vm_compute. discriminate.
  - apply (left_right_cells sample_width 2 "Status" Hn He H2); reflexivity.
Defined.

(** X16 at the chain A -> a -> b -> c, four levels deep, with a rendering
    that adds nothing to the text. *)
Lemma functionCallsView_never_panics_witness :
  let t := run_from_empty (requests chain) in
  (exists out,
     functionCallsView (fun _ s => s) sample_width sample_DurationString sample_StatusName
       4 500 t = Returns (out, t))
  /\ functionCallsView (fun _ s => s) sample_width sample_DurationString sample_StatusName
       3 500 t = OutOfFuel
  /\ forall fuel msg,
       functionCallsView (fun _ s => s) sample_width sample_DurationString sample_StatusName
         fuel 500 t ≠ Panics msg.
Proof.
  intros t.
  assert (Hn : forall x, 0 <= sample_width x) by (intros x; unfold sample_width; lia).
  assert (He : sample_width "" = 0) by reflexivity.
  assert (Hs : sample_width ((fun (_ : Style) (s : string) => s) spinnerStyle (spinner t)) <= 2)
    by (vm_compute; discriminate).
  split; [|split].
  - apply (functionCallsView_never_panics (fun _ s => s) sample_width sample_DurationString
             sample_StatusName 4 500 t Hn He Hs).
    right. vm_compute. repeat constructor.
  - apply (functionCallsView_never_panics (fun _ s => s) sample_width sample_DurationString
             sample_StatusName 3 500 t Hn He Hs).
    + vm_compute. discriminate.
    + vm_compute. intros H. inversion H as [|x0 l0 D1 _]. inversion D1 as [|x1 l1 D2 _].
      inversion D2 as [|x2 l2 D3 _]. inversion D3 as [|x3 l3 [] _].
  - intros fuel msg.
    apply (functionCallsView_never_panics (fun _ s => s) sample_width sample_DurationString
             sample_StatusName fuel 500 t Hn He Hs).
Defined.

(** X17 at the pending root [A], with a rendering whose styled spinner
    frame is nine bytes wide. *)
Lemma wide_spinner_panics_witness :
  let t := run_from_empty [Request 100 req_A] in
  2 < sample_width (sample_Render spinnerStyle (spinner t))
  /\ functionCallsView sample_Render sample_width sample_DurationString sample_StatusName
       5 200 t = Panics "slice bounds out of range [:-1]".
Proof.
  intros t.
  assert (Hn : forall x, 0 <= sample_width x) by (intros x; unfold sample_width; lia).
  assert (He : sample_width "" = 0) by reflexivity.
  assert (Hs : 2 < sample_width (sample_Render spinnerStyle (spinner t))) by reflexivity.
  assert (Hz : size (default ∅ (roots t)) ≠ 0%nat) by (vm_compute; discriminate).
  assert (Hr : orderedRoots t = ["A"]) by (vm_compute; reflexivity).
  assert (Hd : depth_within t 5 "A") by (vm_compute; constructor).
  assert (Hdone : done (node_at t "A") = false) by (vm_compute; reflexivity).
  assert (Hexp : expired 200 (node_at t "A") = false) by (vm_compute; reflexivity).
  split; [exact Hs|].
  exact (wide_spinner_panics sample_Render sample_width sample_DurationString
           sample_StatusName 5 200 t "A" [] Hn He Hs Hz Hr Hd Hdone Hexp).
Defined.

(** X22 at a counter one below [2^64]: two ticks are handled before the
    run quits, the counter wraps to 1 and the logo is as before. *)
Lemma ticks_count_witness :
  let m := mkModel (list (Msg unit)) (mkTUI (2 ^ 64 - 1) None [] None "") [] false 0 false 0 in
  let msgs := [tickMsg; KeyMsg "tab"; tickMsg; KeyMsg "q"; tickMsg] in
  let m' := (sample_Update_all msgs m).1 in
  ticks (tui m') = 1
  /\ ticks (tui m') = (ticks (tui m) + Z.of_nat (count_msgs is_tick (processed msgs))) mod 2 ^ 64
  /\ logoView sample_Render (tui m') = logoView sample_Render (tui m).
Proof.
  intros m msgs m'.
  assert (Hr : 0 <= ticks (tui m) < 2 ^ 64) by (simpl; lia).
  destruct (ticks_count (list (Msg unit)) unit (fun _ _ => []) (fun _ v => v) (fun _ v => v)
              (fun _ v => v) (fun msg v => v ++ [msg]) (fun _ frame => frame +:+ ".")
              sample_Render msgs m Hr) as [H1 H2].
  split; [vm_compute; reflexivity|]. split; [exact H1|].
  apply H2. exists 1%nat. reflexivity.
Defined.
